(** * openapi-core: the request validation and unmarshalling pipeline

    A shallow embedding of
    - [openapi_core/validation/request/validators.py] and
    - [openapi_core/unmarshalling/request/unmarshallers.py],
    followed by the properties of the pipeline: parameter resolution,
    security resolution, body resolution, their composition by the
    validators ([iter_errors], [validate]) and by the unmarshallers
    ([unmarshal]), and the variant of path resolution of each concrete
    class.

    Python dictionaries are stdpp [gmap]s, the [seen] set of
    [_get_parameters] is a [gset], exceptions are values of one type
    [Exception] and a function that may raise returns a [Result]. A
    generator of errors is the finite list of what it yields, in order. *)

From stdpp Require Import gmap strings list fin_maps.

Set Default Proof Using "Type".
Set Warnings "-register-all".
Open Scope string_scope.
Open Scope list_scope.

(** ** Values *)

(** A raw parameter value: a string, or the ordered sequence of the
    values of a repeated parameter. *)
Inductive Raw :=
| RawStr (s : string)
| RawSeq (l : list string).

(** A resolved (cast, validated or unmarshalled) value. [VNone] is
    Python's [None]. *)
Inductive Value :=
| VNone
| VBool (b : bool)
| VInt (z : Z)
| VStr (s : string)
| VList (l : list Value).

(** The four parameter locations, the values of a parameter's ["in"]. *)
Inductive Location := Query | Header | Path | Cookie.

#[global] Instance Location_eq_dec : EqDecision Location.
Proof. solve_decision. Defined.

Definition Location_to_nat (l : Location) : nat :=
  match l with Query => 0 | Header => 1 | Path => 2 | Cookie => 3 end.

Definition Location_of_nat (n : nat) : option Location :=
  match n with
  | 0 => Some Query | 1 => Some Header | 2 => Some Path | 3 => Some Cookie
  | _ => None
  end.

#[global] Instance Location_countable : Countable Location.
Proof.
  apply (inj_countable Location_to_nat Location_of_nat).
  intros []; reflexivity.
Defined.

(** [openapi_core.datatypes.RequestParameters]: what the caller supplies. *)
Module RequestParameters.
Record t := mk {
  query : gmap string Raw;
  header : gmap string Raw;
  cookie : gmap string Raw;
  path : gmap string Raw
}.

Definition empty : t := mk ∅ ∅ ∅ ∅.

(** [parameters[location]] *)
Definition getitem (p : t) (l : Location) : gmap string Raw :=
  match l with
  | Query => query p | Header => header p
  | Path => path p | Cookie => cookie p
  end.

(** [parameters.path = v] *)
Definition set_path (p : t) (v : gmap string Raw) : t :=
  mk (query p) (header p) (cookie p) v.
End RequestParameters.

(** [openapi_core.datatypes.Parameters]: the validated parameters. *)
Module Parameters.
Record t := mk {
  query : gmap string Value;
  header : gmap string Value;
  cookie : gmap string Value;
  path : gmap string Value
}.

(** [Parameters()] *)
Definition empty : t := mk ∅ ∅ ∅ ∅.

(** [getattr(validated, location)] *)
Definition getattr (p : t) (l : Location) : gmap string Value :=
  match l with
  | Query => query p | Header => header p
  | Path => path p | Cookie => cookie p
  end.

(** [getattr(validated, location)[name] = value]: the dictionary is
    updated in place, the other three are untouched. *)
Definition setitem (p : t) (l : Location) (name : string) (value : Value) : t :=
  match l with
  | Query => mk (<[name := value]> (query p)) (header p) (cookie p) (path p)
  | Header => mk (query p) (<[name := value]> (header p)) (cookie p) (path p)
  | Cookie => mk (query p) (header p) (<[name := value]> (cookie p)) (path p)
  | Path => mk (query p) (header p) (cookie p) (<[name := value]> (path p))
  end.
End Parameters.

(** ** Exceptions *)

(** The exceptions that travel through the two modules. The first six are
    raised by collaborators; the others are the request errors of
    [openapi_core.validation.request.exceptions]. An error made by the
    decorator from a lower-level one keeps it as its [cause]. *)
Inductive Exception :=
| KeyError
| ValidateError (detail : string)
| OpenAPIError (detail : string)
| SecurityProviderError (detail : string)
| SecurityNotFound (schemes : list (list string))
| PathError (detail : string)
| ParameterValidationError (name : string) (location : Location) (cause : Exception)
| InvalidParameter (name : string) (location : Location) (cause : Exception)
| MissingParameter (name : string) (location : Location)
| MissingRequiredParameter (name : string) (location : Location)
| RequestBodyValidationError (cause : Exception)
| InvalidRequestBody (cause : Exception)
| MissingRequestBody
| MissingRequiredRequestBody
| SecurityValidationError (cause : Exception)
| InvalidSecurity (cause : Exception)
| ParametersError (errors : list Exception) (parameters : Parameters.t).

(** The classes named by the [except] clauses and by the decorator. *)
Inductive ExcClass :=
| cls_KeyError
| cls_ValidateError
| cls_OpenAPIError
| cls_SecurityProviderError
| cls_PathError
| cls_ParameterValidationError
| cls_MissingParameter
| cls_RequestBodyValidationError
| cls_RequestBodyError
| cls_MissingRequestBody
| cls_SecurityValidationError
| cls_SecurityError
| cls_ParametersError.

(** Modelled from the spec: the class hierarchy of
    [openapi_core.validation.request.exceptions], which is not among the
    sources. Parameter errors are the per-parameter failures and the two
    missing-parameter errors, [MissingParameter] and
    [MissingRequiredParameter] being distinct kinds; body errors are the
    wrapped stage failure and the two missing-body errors; a security
    error is the wrapped [SecurityNotFound]. [RequestBodyError] and
    [SecurityError] are the names under which the unmarshalling pipeline
    catches the body and the security errors. [ParametersError] and
    [KeyError] are not library errors. *)
Definition isinstance (exc : Exception) (cls : ExcClass) : bool :=
  match cls, exc with
  | cls_KeyError, KeyError => true
  | cls_ValidateError, (ValidateError _ | InvalidParameter _ _ _
                        | InvalidRequestBody _ | InvalidSecurity _) => true
  | cls_OpenAPIError, (KeyError | ParametersError _ _) => false
  | cls_OpenAPIError, _ => true
  | cls_SecurityProviderError, SecurityProviderError _ => true
  | cls_PathError, PathError _ => true
  | cls_ParameterValidationError,
      (ParameterValidationError _ _ _ | InvalidParameter _ _ _
       | MissingParameter _ _ | MissingRequiredParameter _ _) => true
  | cls_MissingParameter, MissingParameter _ _ => true
  | (cls_RequestBodyValidationError | cls_RequestBodyError),
      (RequestBodyValidationError _ | InvalidRequestBody _
       | MissingRequestBody | MissingRequiredRequestBody) => true
  | cls_MissingRequestBody, MissingRequestBody => true
  | (cls_SecurityValidationError | cls_SecurityError),
      (SecurityValidationError _ | InvalidSecurity _) => true
  | cls_ParametersError, ParametersError _ _ => true
  | _, _ => false
  end.
Arguments isinstance : simpl never.

(** The outcome of a call that may raise. *)
Inductive Result (A : Type) :=
| Ok (a : A)
| Raise (exc : Exception).
Arguments Ok {A} a.
Arguments Raise {A} exc.

(** Sequencing of calls that may raise: an exception that no handler
    catches leaves the function. *)
#[global] Instance Result_ret : MRet Result := @Ok.
#[global] Instance Result_bind : MBind Result :=
  fun A B f r => match r with Ok a => f a | Raise exc => Raise exc end.

(** What a collaborator stage (style deserializer, caster, schema
    validator or unmarshaller, media type deserializer) raises when it
    fails: a schema validation failure or another library error. *)
Inductive StageFailure :=
| validate_failure (detail : string)
| other_failure (detail : string).

Definition stage_exception (f : StageFailure) : Exception :=
  match f with
  | validate_failure d => ValidateError d
  | other_failure d => OpenAPIError d
  end.

Definition of_stage {A : Type} (r : A + StageFailure) : Result A :=
  match r with
  | inl v => Ok v
  | inr f => Raise (stage_exception f)
  end.

(** Modelled from the spec: the decorator [ValidationErrorWrapper] of
    [openapi_core.validation.decorators], which is not among the sources.
    A low-level failure is wrapped into the owning domain error before it
    crosses the component boundary, the original failure kept as the
    cause; an error that already is of the domain class [err_cls] passes
    unchanged. [err_validate] builds the error for a validation failure
    (the decorator's second class), [err] the one for any other library
    error (its first class). *)
Definition ValidationErrorWrapper {A : Type} (err_cls : ExcClass)
    (err err_validate : Exception -> Exception) (r : Result A) : Result A :=
  match r with
  | Ok v => Ok v
  | Raise exc =>
      if isinstance exc cls_OpenAPIError then
        if isinstance exc err_cls then Raise exc
        else if isinstance exc cls_ValidateError then Raise (err_validate exc)
        else Raise (err exc)
      else Raise exc
  end.

(** ** The contract document *)

(** A parameter declaration, as far as the two modules read it:
    [param["name"]], [param["in"]], [param.getkey("required", False)] and
    [param.getkey("deprecated", False)] ([None] is an absent key). The
    style, explode flag and schema are only read by the collaborators;
    [schema] stands for them. *)
Record ParameterDescriptor := {
  name : string;
  in_ : Location;
  required : option bool;
  deprecated : option bool;
  schema : string
}.

(** One alternative of a security requirement: scheme name to scopes, in
    declaration order. *)
Definition SecurityRequirement : Type := list (string * list string).

(** [security_requirement.keys()] *)
Definition keys (security_requirement : SecurityRequirement) : list string :=
  fst <$> security_requirement.

(** A request body declaration: its [required] key and its [content],
    media type to schema. *)
Record RequestBody := {
  body_required : option bool;
  content : list (string * string)
}.

(** A node of the document that is an Operation or a PathItem. Both are
    [Spec] objects in the source, and both are read through the same
    keys; an absent key is [None]. *)
Record Spec := {
  spec_parameters : option (list ParameterDescriptor);
  spec_security : option (list SecurityRequirement);
  spec_requestBody : option RequestBody
}.

(** The root of the document, [self.spec]: its ["security"] key and the
    section [components#securitySchemes], each [None] when the document
    does not have it. A scheme declaration is opaque here. *)
Record Document := {
  doc_security : option (list SecurityRequirement);
  securitySchemes : option (gmap string string)
}.

(** [d.get(key, default)] and [d.getkey(key, default)] *)
Definition get {A : Type} (o : option A) (dflt : A) : A :=
  match o with Some v => v | None => dflt end.

(** The identity of a declaration for deduplication. *)
Definition identity (param : ParameterDescriptor) : string * Location :=
  (name param, in_ param).

(** ** Requests and results *)

(** The request protocol of [openapi_core.protocols]: [request.body] is
    [None] when there is no payload. *)
Module Request.
Record t := mk {
  method : string;
  url : string;
  mimetype : string;
  body : option string;
  parameters : RequestParameters.t
}.

(** [request.parameters.path = v] *)
Definition set_parameters_path (r : t) (v : gmap string Raw) : t :=
  mk (method r) (url r) (mimetype r) (body r)
     (RequestParameters.set_path (parameters r) v).
End Request.

(** What [_find_path] returns, as far as it is used: the PathItem, the
    Operation and [path_result.variables]. *)
Record PathOperationServer := {
  found_path : Spec;
  found_operation : Spec;
  path_result_variables : gmap string Raw
}.

(** Modelled from the spec: [RequestUnmarshalResult] of
    [openapi_core.unmarshalling.request.datatypes], which is not among
    the sources. A field that the constructor call does not give is
    absent: [None] for the parameters and the security mapping, Python's
    [None] ([VNone]) for the body. *)
Module RequestUnmarshalResult.
Record t := mk {
  errors : list Exception;
  body : Value;
  parameters : option Parameters.t;
  security : option (gmap string Value)
}.
End RequestUnmarshalResult.

(** A generator of errors run to its end: the errors it yields, in
    order, and the exception that ends it when one is not caught. *)
Definition Generator : Type := list Exception * option Exception.

(** [a or b] on dictionaries: [a] unless it is empty. *)
Definition dict_or {V : Type} (a b : gmap string V) : gmap string V :=
  if decide (a = ∅) then b else a.

(** [bool(l)] of a list *)
Definition truthy {A : Type} (l : list A) : bool :=
  match l with [] => false | _ => true end.

(** ** The pipeline of one validator or unmarshaller instance *)

Section Pipeline.

(** [self.spec] *)
Variable spec : Document.

(** The stages behind [_get_param_or_header] once a raw value is
    found: deserialize per style, cast, then validate (or unmarshal,
    in an unmarshaller instance). *)
Variable convert_parameter :
  ParameterDescriptor -> Raw -> Value + StageFailure.

(** [_convert_content_schema_value(raw_body, content, mimetype)]:
    content negotiation, media type deserialization, cast and
    validation (or unmarshalling) of a body that is present. *)
Variable _convert_content_schema_value :
  string -> list (string * string) -> string -> Value + StageFailure.

(** [self.security_provider_factory.create(scheme)(parameters)]: the
    credential, or the message of the [SecurityProviderError]. *)
Variable security_provider :
  string -> RequestParameters.t -> Value + string.

(** [self.path_finder.find] applied to what [_find_path] takes from
    the request: the operation found, or the detail of the
    [PathError]. *)
Variable path_finder : Request.t -> PathOperationServer + string.

(** *** Parameters *)

(** Modelled from the spec: [_get_param_or_header] of [BaseValidator],
    which is not among the sources. The raw value is looked up in the
    location under the parameter's name; when absent the lookup fails
    with [KeyError], when present the value goes through the stages. *)
Definition _get_param_or_header (param : ParameterDescriptor)
    (location : gmap string Raw) (name : string) : Result Value :=
  match location !! name with
  | None => Raise KeyError
  | Some raw => of_stage (convert_parameter param raw)
  end.

(** The [warnings.warn] of [_get_parameter]: a notice on the side, which
    does not change what is returned or raised. *)
Definition _get_parameter_warnings (param : ParameterDescriptor)
    : list string :=
  let name := name param in
  let deprecated := get (deprecated param) false in
  if deprecated then [(name ++ " parameter is deprecated")%string] else [].

(** The body of [_get_parameter], after the deprecation notice. *)
Definition _get_parameter_body (parameters : RequestParameters.t)
    (param : ParameterDescriptor) : Result Value :=
  let name := name param in
  let param_location := in_ param in
  let location := RequestParameters.getitem parameters param_location in
  match _get_param_or_header param location name with
  | Raise exc =>
      if isinstance exc cls_KeyError then
        let required := get (required param) false in
        if required then Raise (MissingRequiredParameter name param_location)
        else Raise (MissingParameter name param_location)
      else Raise exc
  | Ok v => Ok v
  end.

(** [_get_parameter], decorated with [ValidationErrorWrapper(
    ParameterValidationError, InvalidParameter, "from_spec",
    spec="param")]: the wrapping error is built from the declaration's
    name and location. *)
Definition _get_parameter (parameters : RequestParameters.t)
    (param : ParameterDescriptor) : Result Value :=
  ValidationErrorWrapper cls_ParameterValidationError
    (ParameterValidationError (name param) (in_ param))
    (InvalidParameter (name param) (in_ param))
    (_get_parameter_body parameters param).

(** The [for param in params_iter] loop of [_get_parameters], with its
    three mutable variables [errors], [seen] and [validated]. An
    exception that no [except] clause names leaves the loop. *)
Fixpoint _get_parameters_loop (parameters : RequestParameters.t)
    (params_iter : list ParameterDescriptor) (errors : list Exception)
    (seen : gset (string * Location)) (validated : Parameters.t)
    : Result (list Exception * Parameters.t) :=
  match params_iter with
  | [] => Ok (errors, validated)
  | param :: rest =>
      let param_name := name param in
      let param_location := in_ param in
      if decide ((param_name, param_location) ∈ seen) then
        _get_parameters_loop parameters rest errors seen validated
      else
        let seen := seen ∪ {[ (param_name, param_location) ]} in
        match _get_parameter parameters param with
        | Raise exc =>
            if isinstance exc cls_MissingParameter then
              _get_parameters_loop parameters rest errors seen validated
            else if isinstance exc cls_ParameterValidationError then
              _get_parameters_loop parameters rest (errors ++ [exc]) seen
                validated
            else Raise exc
        | Ok value =>
            _get_parameters_loop parameters rest errors seen
              (Parameters.setitem validated param_location param_name value)
        end
  end.

Definition _get_parameters (parameters : RequestParameters.t)
    (operation path : Spec) : Result Parameters.t :=
  let operation_params := get (spec_parameters operation) [] in
  let path_params := get (spec_parameters path) [] in
  let params_iter := operation_params ++ path_params in
  match _get_parameters_loop parameters params_iter [] ∅ Parameters.empty with
  | Raise exc => Raise exc
  | Ok (errors, validated) =>
      if truthy errors then Raise (ParametersError errors validated)
      else Ok validated
  end.

(** *** Security *)

(** [self.spec / "components#securitySchemes"] is read with no guard:
    on a document without that section the membership test raises
    [KeyError]. A name that the section does not declare gives [None]. *)
Definition _get_security_value (parameters : RequestParameters.t)
    (scheme_name : string) : Result Value :=
  match securitySchemes spec with
  | None => Raise KeyError
  | Some security_schemes =>
      match security_schemes !! scheme_name with
      | None => Ok VNone
      | Some scheme =>
          match security_provider scheme parameters with
          | inl credential => Ok credential
          | inr detail => Raise (SecurityProviderError detail)
          end
      end
  end.

(** The dictionary comprehension of [_get_security]: the values are
    computed in the order of [scheme_names], the first exception ends
    it. *)
Fixpoint security_values (parameters : RequestParameters.t)
    (scheme_names : list string) (acc : gmap string Value)
    : Result (gmap string Value) :=
  match scheme_names with
  | [] => Ok acc
  | scheme_name :: rest =>
      match _get_security_value parameters scheme_name with
      | Raise exc => Raise exc
      | Ok value =>
          security_values parameters rest (<[scheme_name := value]> acc)
      end
  end.

(** The [for security_requirement in security] loop. *)
Fixpoint _get_security_loop (parameters : RequestParameters.t)
    (security : list SecurityRequirement) (schemes : list (list string))
    : Result (gmap string Value) :=
  match security with
  | [] => Raise (SecurityNotFound schemes)
  | security_requirement :: rest =>
      let scheme_names := keys security_requirement in
      let schemes := schemes ++ [scheme_names] in
      match security_values parameters scheme_names ∅ with
      | Ok found => Ok found
      | Raise exc =>
          if isinstance exc cls_SecurityProviderError then
            _get_security_loop parameters rest schemes
          else Raise exc
      end
  end.

Definition _get_security_body (parameters : RequestParameters.t)
    (operation : Spec) : Result (gmap string Value) :=
  let security := None in
  let security :=
    match doc_security spec with Some s => Some s | None => security end in
  let security :=
    match spec_security operation with Some s => Some s | None => security end in
  match security with
  | None | Some [] => Ok ∅
  | Some alternatives => _get_security_loop parameters alternatives []
  end.

(** [_get_security], decorated with
    [ValidationErrorWrapper(SecurityValidationError, InvalidSecurity)]. *)
Definition _get_security (parameters : RequestParameters.t)
    (operation : Spec) : Result (gmap string Value) :=
  ValidationErrorWrapper cls_SecurityValidationError
    SecurityValidationError InvalidSecurity
    (_get_security_body parameters operation).

(** *** Body *)

(** [if not body]: [None] and the empty string are both falsy. *)
Definition _get_body_value (body : option string)
    (request_body : RequestBody) : Result string :=
  match body with
  | None | Some "" =>
      if get (body_required request_body) false then
        Raise MissingRequiredRequestBody
      else Raise MissingRequestBody
  | Some raw => Ok raw
  end.

Definition _get_body_body (body : option string) (mimetype : string)
    (operation : Spec) : Result Value :=
  match spec_requestBody operation with
  | None => Ok VNone
  | Some request_body =>
      let content := content request_body in
      match _get_body_value body request_body with
      | Raise exc => Raise exc
      | Ok raw_body =>
          of_stage (_convert_content_schema_value raw_body content mimetype)
      end
  end.

(** [_get_body], decorated with
    [ValidationErrorWrapper(RequestBodyValidationError, InvalidRequestBody)]. *)
Definition _get_body (body : option string) (mimetype : string)
    (operation : Spec) : Result Value :=
  ValidationErrorWrapper cls_RequestBodyValidationError
    RequestBodyValidationError InvalidRequestBody
    (_get_body_body body mimetype operation).

(** *** The validators: error sequences *)

(** One [try] block of a generator followed by the rest of its body:
    the rest runs unless an exception left the block uncaught. *)
Definition gen_then (g1 g2 : Generator) : Generator :=
  match snd g1 with
  | Some exc => g1
  | None => (fst g1 ++ fst g2, snd g2)
  end.

Definition _iter_errors (request : Request.t) (operation path : Spec)
    : Generator :=
  match _get_security (Request.parameters request) operation with
  | Raise exc =>
      (* don't process if security errors *)
      if isinstance exc cls_SecurityValidationError then ([exc], None)
      else ([], Some exc)
  | Ok _ =>
      gen_then
        match _get_parameters (Request.parameters request) operation path with
        | Raise (ParametersError errors _) => (errors, None)
        | Raise exc => ([], Some exc)
        | Ok _ => ([], None)
        end
        match _get_body (Request.body request) (Request.mimetype request)
                operation with
        | Raise exc =>
            if isinstance exc cls_RequestBodyValidationError
            then ([exc], None) else ([], Some exc)
        | Ok _ => ([], None)
        end
  end.

Definition _iter_body_errors (request : Request.t) (operation : Spec)
    : Generator :=
  match _get_body (Request.body request) (Request.mimetype request)
          operation with
  | Raise exc =>
      if isinstance exc cls_RequestBodyValidationError
      then ([exc], None) else ([], Some exc)
  | Ok _ => ([], None)
  end.

Definition _iter_parameters_errors (request : Request.t)
    (operation path : Spec) : Generator :=
  match _get_parameters (Request.parameters request) path operation with
  | Raise (ParametersError errors _) => (errors, None)
  | Raise exc => ([], Some exc)
  | Ok _ => ([], None)
  end.

Definition _iter_security_errors (request : Request.t) (operation : Spec)
    : Generator :=
  match _get_security (Request.parameters request) operation with
  | Raise exc =>
      if isinstance exc cls_SecurityValidationError then ([exc], None)
      else ([], Some exc)
  | Ok _ => ([], None)
  end.

(** [validate]: [for err in self.iter_errors(request): raise err]. *)
Definition validate (iter_errors : Request.t -> Generator)
    (request : Request.t) : Result unit :=
  match iter_errors request with
  | (err :: _, _) => Raise err
  | ([], Some exc) => Raise exc
  | ([], None) => Ok tt
  end.

(** Modelled from the spec: [_find_path] of the base validators, which
    are not among the sources: the request is resolved by the path
    finder the instance is configured with, and no match is a
    [PathError]. *)
Definition _find_path (request : Request.t) : Result PathOperationServer :=
  match path_finder request with
  | inl found => Ok found
  | inr detail => Raise (PathError detail)
  end.

(** [request.parameters.path = request.parameters.path or
    path_result.variables]. The assignment is made on the caller's
    request object; the stages receive the request so updated. *)
Definition with_path_variables (request : Request.t)
    (found : PathOperationServer) : Request.t :=
  Request.set_parameters_path request
    (dict_or (RequestParameters.path (Request.parameters request))
             (path_result_variables found)).

(** [yield exc; return] in the [except PathError] clause of every
    [iter_errors], and the hand-over to a stage otherwise. *)
Definition APICallRequestBodyValidator_iter_errors (request : Request.t)
    : Generator :=
  match _find_path request with
  | Raise exc =>
      if isinstance exc cls_PathError then ([exc], None) else ([], Some exc)
  | Ok found => _iter_body_errors request (found_operation found)
  end.

Definition APICallRequestParametersValidator_iter_errors
    (request : Request.t) : Generator :=
  match _find_path request with
  | Raise exc =>
      if isinstance exc cls_PathError then ([exc], None) else ([], Some exc)
  | Ok found =>
      let request := with_path_variables request found in
      _iter_parameters_errors request (found_operation found)
        (found_path found)
  end.

Definition APICallRequestSecurityValidator_iter_errors
    (request : Request.t) : Generator :=
  match _find_path request with
  | Raise exc =>
      if isinstance exc cls_PathError then ([exc], None) else ([], Some exc)
  | Ok found => _iter_security_errors request (found_operation found)
  end.

Definition APICallRequestValidator_iter_errors (request : Request.t)
    : Generator :=
  match _find_path request with
  | Raise exc =>
      (* don't process if operation errors *)
      if isinstance exc cls_PathError then ([exc], None) else ([], Some exc)
  | Ok found =>
      let request := with_path_variables request found in
      _iter_errors request (found_operation found) (found_path found)
  end.

(** The four webhook validators have the bodies of their API-call
    counterparts; they differ by the [_find_path] of their base. *)
Definition WebhookRequestValidator_iter_errors :=
  APICallRequestValidator_iter_errors.
Definition WebhookRequestBodyValidator_iter_errors :=
  APICallRequestBodyValidator_iter_errors.
Definition WebhookRequestParametersValidator_iter_errors :=
  APICallRequestParametersValidator_iter_errors.
Definition WebhookRequestSecurityValidator_iter_errors :=
  APICallRequestSecurityValidator_iter_errors.

(** *** The unmarshallers: results *)

Definition _unmarshal (request : Request.t) (operation path : Spec)
    : Result RequestUnmarshalResult.t :=
  match _get_security (Request.parameters request) operation with
  | Raise exc =>
      if isinstance exc cls_SecurityError then
        Ok (RequestUnmarshalResult.mk [exc] VNone None None)
      else Raise exc
  | Ok security =>
      '(params, params_errors) ←
        match _get_parameters (Request.parameters request) operation path with
        | Raise (ParametersError errors parameters) => Ok (parameters, errors)
        | Raise exc => Raise exc
        | Ok params => Ok (params, [])
        end;
      '(body, body_errors) ←
        match _get_body (Request.body request) (Request.mimetype request)
                operation with
        | Raise exc =>
            if isinstance exc cls_MissingRequestBody then Ok (VNone, [])
            else if isinstance exc cls_RequestBodyError then Ok (VNone, [exc])
            else Raise exc
        | Ok body => Ok (body, [])
        end;
      let errors := params_errors ++ body_errors in
      Ok (RequestUnmarshalResult.mk errors body (Some params) (Some security))
  end.

Definition _unmarshal_body (request : Request.t) (operation path : Spec)
    : Result RequestUnmarshalResult.t :=
  '(body, errors) ←
    match _get_body (Request.body request) (Request.mimetype request)
            operation with
    | Raise exc =>
        if isinstance exc cls_MissingRequestBody then Ok (VNone, [])
        else if isinstance exc cls_RequestBodyError then Ok (VNone, [exc])
        else Raise exc
    | Ok body => Ok (body, [])
    end;
  Ok (RequestUnmarshalResult.mk errors body None None).

Definition _unmarshal_parameters (request : Request.t)
    (operation path : Spec) : Result RequestUnmarshalResult.t :=
  '(params, params_errors) ←
    match _get_parameters (Request.parameters request) path operation with
    | Raise (ParametersError errors parameters) => Ok (parameters, errors)
    | Raise exc => Raise exc
    | Ok params => Ok (params, [])
    end;
  Ok (RequestUnmarshalResult.mk params_errors VNone (Some params) None).

Definition _unmarshal_security (request : Request.t)
    (operation path : Spec) : Result RequestUnmarshalResult.t :=
  match _get_security (Request.parameters request) operation with
  | Raise exc =>
      if isinstance exc cls_SecurityError then
        Ok (RequestUnmarshalResult.mk [exc] VNone None None)
      else Raise exc
  | Ok security =>
      Ok (RequestUnmarshalResult.mk [] VNone None (Some security))
  end.

(** The [unmarshal] of the eight unmarshaller classes: the same text
    up to the stage it ends with. *)
Definition unmarshal_with
    (stage : Request.t -> Spec -> Spec -> Result RequestUnmarshalResult.t)
    (request : Request.t) : Result RequestUnmarshalResult.t :=
  match _find_path request with
  | Raise exc =>
      (* don't process if operation errors *)
      if isinstance exc cls_PathError then
        Ok (RequestUnmarshalResult.mk [exc] VNone None None)
      else Raise exc
  | Ok found =>
      let request := with_path_variables request found in
      stage request (found_operation found) (found_path found)
  end.

Definition APICallRequestUnmarshaller_unmarshal :=
  unmarshal_with _unmarshal.
Definition APICallRequestBodyUnmarshaller_unmarshal :=
  unmarshal_with _unmarshal_body.
Definition APICallRequestParametersUnmarshaller_unmarshal :=
  unmarshal_with _unmarshal_parameters.
Definition APICallRequestSecurityUnmarshaller_unmarshal :=
  unmarshal_with _unmarshal_security.
Definition WebhookRequestUnmarshaller_unmarshal :=
  unmarshal_with _unmarshal.
Definition WebhookRequestBodyUnmarshaller_unmarshal :=
  unmarshal_with _unmarshal_body.
Definition WebhookRequestParametersUnmarshaller_unmarshal :=
  unmarshal_with _unmarshal_parameters.
Definition WebhookRequestSecuritysUnmarshaller_unmarshal :=
  unmarshal_with _unmarshal_security.

End Pipeline.

(** ** The classes and their path resolution *)

(** The two path finders: server-relative, and webhook-relative
    ([openapi_core.templating.paths.finders.WebhookPathFinder]). *)
Inductive PathFinderCls := APICallPathFinder | WebhookPathFinder.

(** The classes of the two modules, and the four bases they import from
    [openapi_core.validation.validators] and
    [openapi_core.unmarshalling.unmarshallers]. *)
Inductive Class :=
| BaseValidator | BaseAPICallValidator | BaseWebhookValidator
| BaseUnmarshaller
| BaseRequestValidator
| BaseAPICallRequestValidator | BaseWebhookRequestValidator
| APICallRequestBodyValidator | APICallRequestParametersValidator
| APICallRequestSecurityValidator | APICallRequestValidator
| WebhookRequestValidator | WebhookRequestBodyValidator
| WebhookRequestParametersValidator | WebhookRequestSecurityValidator
| V30RequestBodyValidator | V30RequestParametersValidator
| V30RequestSecurityValidator | V30RequestValidator
| V31RequestBodyValidator | V31RequestParametersValidator
| V31RequestSecurityValidator | V31RequestValidator
| V31WebhookRequestBodyValidator | V31WebhookRequestParametersValidator
| V31WebhookRequestSecurityValidator | V31WebhookRequestValidator
| BaseRequestUnmarshaller
| BaseAPICallRequestUnmarshaller | BaseWebhookRequestUnmarshaller
| APICallRequestUnmarshaller | APICallRequestBodyUnmarshaller
| APICallRequestParametersUnmarshaller | APICallRequestSecurityUnmarshaller
| WebhookRequestUnmarshaller | WebhookRequestBodyUnmarshaller
| WebhookRequestParametersUnmarshaller | WebhookRequestSecuritysUnmarshaller
| V30RequestBodyUnmarshaller | V30RequestParametersUnmarshaller
| V30RequestSecurityUnmarshaller | V30RequestUnmarshaller
| V31RequestBodyUnmarshaller | V31RequestParametersUnmarshaller
| V31RequestSecurityUnmarshaller | V31RequestUnmarshaller
| V31WebhookRequestBodyUnmarshaller | V31WebhookRequestParametersUnmarshaller
| V31WebhookRequestSecurityUnmarshaller | V31WebhookRequestUnmarshaller.

#[global] Instance Class_eq_dec : EqDecision Class.
Proof. solve_decision. Defined.

(** The bases of each class statement, in the order written. *)
Definition bases (c : Class) : list Class :=
  match c with
  | BaseValidator | BaseAPICallValidator | BaseWebhookValidator
  | BaseUnmarshaller => []
  | BaseRequestValidator => [BaseValidator]
  | BaseAPICallRequestValidator => [BaseRequestValidator; BaseAPICallValidator]
  | BaseWebhookRequestValidator => [BaseRequestValidator; BaseWebhookValidator]
  | APICallRequestBodyValidator | APICallRequestParametersValidator
  | APICallRequestSecurityValidator | APICallRequestValidator =>
      [BaseAPICallRequestValidator]
  | WebhookRequestValidator | WebhookRequestBodyValidator
  | WebhookRequestParametersValidator | WebhookRequestSecurityValidator =>
      [BaseWebhookRequestValidator]
  | V30RequestBodyValidator => [APICallRequestBodyValidator]
  | V30RequestParametersValidator => [APICallRequestParametersValidator]
  | V30RequestSecurityValidator => [APICallRequestSecurityValidator]
  | V30RequestValidator => [APICallRequestValidator]
  | V31RequestBodyValidator => [APICallRequestBodyValidator]
  | V31RequestParametersValidator => [APICallRequestParametersValidator]
  | V31RequestSecurityValidator => [APICallRequestSecurityValidator]
  | V31RequestValidator => [APICallRequestValidator]
  | V31WebhookRequestBodyValidator => [WebhookRequestBodyValidator]
  | V31WebhookRequestParametersValidator => [WebhookRequestParametersValidator]
  | V31WebhookRequestSecurityValidator => [WebhookRequestSecurityValidator]
  | V31WebhookRequestValidator => [WebhookRequestValidator]
  | BaseRequestUnmarshaller => [BaseRequestValidator; BaseUnmarshaller]
  | BaseAPICallRequestUnmarshaller | BaseWebhookRequestUnmarshaller =>
      [BaseRequestUnmarshaller]
  | APICallRequestUnmarshaller | APICallRequestBodyUnmarshaller
  | APICallRequestParametersUnmarshaller
  | APICallRequestSecurityUnmarshaller =>
      [APICallRequestValidator; BaseAPICallRequestUnmarshaller]
  | WebhookRequestUnmarshaller | WebhookRequestBodyUnmarshaller
  | WebhookRequestParametersUnmarshaller
  | WebhookRequestSecuritysUnmarshaller =>
      [WebhookRequestValidator; BaseWebhookRequestUnmarshaller]
  | V30RequestBodyUnmarshaller =>
      [V30RequestBodyValidator; APICallRequestBodyUnmarshaller]
  | V30RequestParametersUnmarshaller =>
      [V30RequestParametersValidator; APICallRequestParametersUnmarshaller]
  | V30RequestSecurityUnmarshaller =>
      [V30RequestSecurityValidator; APICallRequestSecurityUnmarshaller]
  | V30RequestUnmarshaller => [V30RequestValidator; APICallRequestUnmarshaller]
  | V31RequestBodyUnmarshaller =>
      [V31RequestBodyValidator; APICallRequestBodyUnmarshaller]
  | V31RequestParametersUnmarshaller =>
      [V31RequestParametersValidator; APICallRequestParametersUnmarshaller]
  | V31RequestSecurityUnmarshaller =>
      [V31RequestSecurityValidator; APICallRequestSecurityUnmarshaller]
  | V31RequestUnmarshaller => [V31RequestValidator; APICallRequestUnmarshaller]
  | V31WebhookRequestBodyUnmarshaller =>
      [V31WebhookRequestBodyValidator; WebhookRequestBodyUnmarshaller]
  | V31WebhookRequestParametersUnmarshaller =>
      [V31WebhookRequestParametersValidator;
       WebhookRequestParametersUnmarshaller]
  | V31WebhookRequestSecurityUnmarshaller =>
      [V31WebhookRequestSecurityValidator; WebhookRequestSecuritysUnmarshaller]
  | V31WebhookRequestUnmarshaller =>
      [V31WebhookRequestValidator; WebhookRequestUnmarshaller]
  end.

(** The [path_finder_cls] attribute in the body of each class of the two
    modules. No function of the two modules reads it. *)
Definition path_finder_cls_attr (c : Class) : option PathFinderCls :=
  match c with
  | V31RequestValidator => Some WebhookPathFinder
  | V31WebhookRequestBodyValidator | V31WebhookRequestParametersValidator
  | V31WebhookRequestSecurityValidator | V31WebhookRequestValidator =>
      Some WebhookPathFinder
  | _ => None
  end.

(** Python's method resolution order (C3 linearization): the class, then
    the merge of the linearizations of its bases and of the list of its
    bases. The merge takes the first head that is in no tail. *)
Fixpoint c3_merge (fuel : nat) (seqs : list (list Class))
    : option (list Class) :=
  match fuel with
  | 0 => None
  | S fuel =>
      let seqs := filter (fun l => l ≠ []) seqs in
      match seqs with
      | [] => Some []
      | _ =>
          let in_a_tail c :=
            existsb (fun l => bool_decide (c ∈ tail l)) seqs in
          match List.find (fun c => negb (in_a_tail c)) (omap head seqs) with
          | None => None
          | Some c =>
              cons c <$>
                c3_merge fuel
                  (map (fun l => match l with
                                 | h :: t => if decide (h = c) then t else l
                                 | [] => []
                                 end) seqs)
          end
      end
  end.

Fixpoint mro_fuel (fuel : nat) (c : Class) : option (list Class) :=
  match fuel with
  | 0 => None
  | S fuel =>
      parents ← mapM (mro_fuel fuel) (bases c);
      rest ← c3_merge 64 (parents ++ [bases c]);
      Some (c :: rest)
  end.

(** [cls.__mro__]; the hierarchy is at most seven classes deep. *)
Definition mro (c : Class) : list Class := default [] (mro_fuel 8 c).

(** [path_finder_cls] as the two modules set it: the attribute of the
    first class of the resolution order whose body sets it, if any. *)
Definition path_finder_cls (c : Class) : option PathFinderCls :=
  head (omap path_finder_cls_attr (mro c)).

(** The concrete API-call classes of the two dialects, validators and
    unmarshallers, and the concrete webhook classes. *)
Definition api_call_classes : list Class :=
  [V30RequestBodyValidator; V30RequestParametersValidator;
   V30RequestSecurityValidator; V30RequestValidator;
   V31RequestBodyValidator; V31RequestParametersValidator;
   V31RequestSecurityValidator; V31RequestValidator;
   V30RequestBodyUnmarshaller; V30RequestParametersUnmarshaller;
   V30RequestSecurityUnmarshaller; V30RequestUnmarshaller;
   V31RequestBodyUnmarshaller; V31RequestParametersUnmarshaller;
   V31RequestSecurityUnmarshaller; V31RequestUnmarshaller].

Definition webhook_classes : list Class :=
  [V31WebhookRequestBodyValidator; V31WebhookRequestParametersValidator;
   V31WebhookRequestSecurityValidator; V31WebhookRequestValidator;
   V31WebhookRequestBodyUnmarshaller; V31WebhookRequestParametersUnmarshaller;
   V31WebhookRequestSecurityUnmarshaller; V31WebhookRequestUnmarshaller].

(** Modelled from the spec: the variant of path resolution of a class.
    [_find_path] and the path finder belong to the two base validators
    of [openapi_core.validation.validators], which are not among the
    sources. The variant is fixed by the kind of orchestrator and not
    detected at run time: server-relative for the validators of
    standard inbound requests, which derive from [BaseAPICallValidator],
    and webhook-relative for the validators of webhook deliveries, which
    derive from [BaseWebhookValidator]. *)
Definition path_finder_variant (c : Class) : option PathFinderCls :=
  if bool_decide (BaseAPICallValidator ∈ mro c) then Some APICallPathFinder
  else if bool_decide (BaseWebhookValidator ∈ mro c)
       then Some WebhookPathFinder
       else None.

(** ** The methods of the classes *)

(** The four pipelines: the full one and the three partial ones. *)
Inductive Facet := Full | BodyOnly | ParametersOnly | SecurityOnly.

(** What an [iter_errors] or an [unmarshal] written in a class body does:
    raise [NotImplementedError], or find the path and hand the request
    over to the stage of a facet. *)
Inductive Method := NotImplemented | Stage (facet : Facet).

(** The [iter_errors] written in the body of each class. *)
Definition iter_errors_attr (c : Class) : option Method :=
  match c with
  | BaseAPICallRequestValidator | BaseWebhookRequestValidator =>
      Some NotImplemented
  | APICallRequestBodyValidator | WebhookRequestBodyValidator =>
      Some (Stage BodyOnly)
  | APICallRequestParametersValidator | WebhookRequestParametersValidator =>
      Some (Stage ParametersOnly)
  | APICallRequestSecurityValidator | WebhookRequestSecurityValidator =>
      Some (Stage SecurityOnly)
  | APICallRequestValidator | WebhookRequestValidator => Some (Stage Full)
  | _ => None
  end.

(** The [unmarshal] written in the body of each class. *)
Definition unmarshal_attr (c : Class) : option Method :=
  match c with
  | APICallRequestUnmarshaller | WebhookRequestUnmarshaller =>
      Some (Stage Full)
  | APICallRequestBodyUnmarshaller | WebhookRequestBodyUnmarshaller =>
      Some (Stage BodyOnly)
  | APICallRequestParametersUnmarshaller
  | WebhookRequestParametersUnmarshaller => Some (Stage ParametersOnly)
  | APICallRequestSecurityUnmarshaller
  | WebhookRequestSecuritysUnmarshaller => Some (Stage SecurityOnly)
  | _ => None
  end.

(** [getattr(cls, name)]: the attribute of the first class of the
    resolution order that has it. *)
Definition resolve {A : Type} (attr : Class -> option A) (c : Class)
    : option A :=
  head (omap attr (mro c)).

(** The unmarshaller classes of the two dialects, API-call and webhook,
    and the unmarshaller classes they are derived from. *)
Definition versioned_unmarshallers : list Class :=
  [V30RequestBodyUnmarshaller; V30RequestParametersUnmarshaller;
   V30RequestSecurityUnmarshaller; V30RequestUnmarshaller;
   V31RequestBodyUnmarshaller; V31RequestParametersUnmarshaller;
   V31RequestSecurityUnmarshaller; V31RequestUnmarshaller;
   V31WebhookRequestBodyUnmarshaller; V31WebhookRequestParametersUnmarshaller;
   V31WebhookRequestSecurityUnmarshaller; V31WebhookRequestUnmarshaller].

Definition partial_base_unmarshallers : list Class :=
  [APICallRequestBodyUnmarshaller; APICallRequestParametersUnmarshaller;
   APICallRequestSecurityUnmarshaller; WebhookRequestBodyUnmarshaller;
   WebhookRequestParametersUnmarshaller; WebhookRequestSecuritysUnmarshaller].

(** ** Vocabulary of the properties *)

(** The declarations in the order [_get_parameters] walks them. *)
Definition declared (operation path : Spec) : list ParameterDescriptor :=
  get (spec_parameters operation) [] ++ get (spec_parameters path) [].

(** The first declaration of an identity in a list of declarations. *)
Definition first_declared (params : list ParameterDescriptor)
    (id : string * Location) : option ParameterDescriptor :=
  List.find (fun d => bool_decide (identity d = id)) params.

(** The declarations that are not skipped: the first of each identity
    that is not in [seen]. *)
Fixpoint surviving (params : list ParameterDescriptor)
    (seen : gset (string * Location)) : list ParameterDescriptor :=
  match params with
  | [] => []
  | d :: rest =>
      if decide (identity d ∈ seen) then surviving rest seen
      else d :: surviving rest (seen ∪ {[ identity d ]})
  end.

(** The parameter an error is about. *)
Definition error_identity (exc : Exception) : option (string * Location) :=
  match exc with
  | ParameterValidationError n l _ | InvalidParameter n l _
  | MissingParameter n l | MissingRequiredParameter n l => Some (n, l)
  | _ => None
  end.

(** The error a resolution result records for a declaration, if any. *)
Definition recorded (r : Result Value) : option Exception :=
  match r with
  | Ok _ => None
  | Raise exc => if isinstance exc cls_MissingParameter then None else Some exc
  end.

(** The two components of the outcome of parameter resolution, as the
    callers of [_get_parameters] read them. *)
Definition errors_of (r : Result Parameters.t) : list Exception :=
  match r with
  | Raise (ParametersError errors _) => errors
  | _ => []
  end.

Definition validated_of (r : Result Parameters.t) : option Parameters.t :=
  match r with
  | Ok validated | Raise (ParametersError _ validated) => Some validated
  | Raise _ => None
  end.

(** The effective security requirement: operation-level if declared,
    else document-level. *)
Definition effective_security (spec : Document) (operation : Spec)
    : option (list SecurityRequirement) :=
  match spec_security operation with
  | Some s => Some s
  | None => doc_security spec
  end.

(** What the unmarshallers keep of the outcome of body resolution: the
    body and the errors. *)
Definition body_outcome (r : Result Value) : Value * list Exception :=
  match r with
  | Ok body => (body, [])
  | Raise exc =>
      if isinstance exc cls_MissingRequestBody then (VNone, [])
      else (VNone, [exc])
  end.

(** What the validators yield for the outcome of body resolution. *)
Definition body_yielded (r : Result Value) : list Exception :=
  match r with
  | Ok _ => []
  | Raise exc => [exc]
  end.

(** [not body] *)
Definition body_missing (body : option string) : Prop :=
  body = None \/ body = Some "".

(** What the document and the provider give for a scheme name and a
    request: nothing when the document has no
    [components#securitySchemes] to look the name up in; else the
    credential (Python's [None] for a name that the section does not
    declare) or the message of the provider's refusal. *)
Definition provider_outcome (spec : Document)
    (security_provider : string -> RequestParameters.t -> Value + string)
    (parameters : RequestParameters.t) (scheme_name : string)
    : option (Value + string) :=
  match securitySchemes spec with
  | None => None
  | Some schemes =>
      Some match schemes !! scheme_name with
           | None => inl VNone
           | Some scheme => security_provider scheme parameters
           end
  end.

Definition gives_credential (o : option (Value + string)) : bool :=
  match o with Some (inl _) => true | _ => false end.

Definition is_refusal (o : option (Value + string)) : bool :=
  match o with Some (inr _) => true | _ => false end.

(** An alternative is accepted when every scheme of it yields a
    credential, and refused when the provider of one of its schemes
    refuses the request. On a document without
    [components#securitySchemes] an alternative that names a scheme is
    neither. *)
Definition accepted (spec : Document)
    (security_provider : string -> RequestParameters.t -> Value + string)
    (parameters : RequestParameters.t) (alternative : SecurityRequirement)
    : bool :=
  forallb
    (fun n =>
       gives_credential (provider_outcome spec security_provider parameters n))
    (keys alternative).

Definition refused (spec : Document)
    (security_provider : string -> RequestParameters.t -> Value + string)
    (parameters : RequestParameters.t) (alternative : SecurityRequirement)
    : bool :=
  existsb
    (fun n =>
       is_refusal (provider_outcome spec security_provider parameters n))
    (keys alternative).

(** ** Example collaborators and inputs *)

(** A converter for the examples: an ["integer"] schema accepts the
    non-empty strings of decimal digits, any other schema keeps the
    string; a repeated parameter becomes the list of its values. *)
Definition digit_of (c : Ascii.ascii) : option Z :=
  let n := Z.of_nat (Ascii.nat_of_ascii c) in
  if decide (48 ≤ n ≤ 57)%Z then Some (n - 48)%Z else None.

Fixpoint parse_digits (s : string) (acc : Z) : option Z :=
  match s with
  | EmptyString => Some acc
  | String c rest => d ← digit_of c; parse_digits rest (10 * acc + d)%Z
  end.

Definition example_convert (param : ParameterDescriptor) (raw : Raw)
    : Value + StageFailure :=
  match raw with
  | RawStr s =>
      if decide (schema param = "integer") then
        match s, parse_digits s 0 with
        | String _ _, Some z => inl (VInt z)
        | _, _ => inr (validate_failure "not an integer")
        end
      else inl (VStr s)
  | RawSeq l => inl (VList (VStr <$> l))
  end.

(** A body converter for the examples: the media type must be declared,
    the payload is kept as it is. *)
Definition example_convert_body (raw_body : string)
    (content : list (string * string)) (mimetype : string)
    : Value + StageFailure :=
  if decide (mimetype ∈ content.*1) then inl (VStr raw_body)
  else inr (other_failure "media type not found").

(** A security provider for the examples: the declaration of a scheme
    names the header that carries its credential. *)
Definition example_provider (scheme : string)
    (parameters : RequestParameters.t) : Value + string :=
  match RequestParameters.header parameters !! scheme with
  | Some (RawStr s) => inl (VStr s)
  | _ => inr "credential not found"
  end.

Definition descriptor (n : string) (l : Location) (req : option bool)
    (sch : string) : ParameterDescriptor :=
  {| name := n; in_ := l; required := req; deprecated := None; schema := sch |}.

Definition node (params : option (list ParameterDescriptor)) : Spec :=
  {| spec_parameters := params; spec_security := None;
     spec_requestBody := None |}.

(** A document that declares no security and has no
    [components#securitySchemes]. *)
Definition no_security : Document :=
  {| doc_security := None; securitySchemes := None |}.

Definition request_of (body : option string) (parameters : RequestParameters.t)
    : Request.t :=
  Request.mk "get" "/pets" "application/json" body parameters.

(** A path finder for the examples: [/pets] is the only path, with the
    given PathItem and Operation and no path variables. *)
Definition example_finder (path operation : Spec) (request : Request.t)
    : PathOperationServer + string :=
  if decide (Request.url request = "/pets") then
    inl {| found_path := path; found_operation := operation;
           path_result_variables := ∅ |}
  else inr "path not found".

(** The same parameter [foo] in the query, optional on the Operation and
    required on the PathItem; and a request without it. *)
Definition foo_optional : ParameterDescriptor :=
  descriptor "foo" Query (Some false) "integer".
Definition foo_required : ParameterDescriptor :=
  descriptor "foo" Query (Some true) "string".
Definition operation_foo : Spec := node (Some [foo_optional]).
Definition path_foo : Spec := node (Some [foo_required]).

(** Two required query parameters, [a] on the Operation and [b] on the
    PathItem. *)
Definition a_required : ParameterDescriptor :=
  descriptor "a" Query (Some true) "string".
Definition b_required : ParameterDescriptor :=
  descriptor "b" Query (Some true) "string".
Definition b_optional : ParameterDescriptor :=
  descriptor "b" Query None "string".
Definition operation_a : Spec := node (Some [a_required]).
Definition path_b : Spec := node (Some [b_required]).

(** A request whose query has only [b]. *)
Definition only_b : RequestParameters.t :=
  RequestParameters.mk {[ "b" := RawStr "1" ]} ∅ ∅ ∅.

(** Two security schemes, the credential of each in a header; an
    operation that accepts [basic], or [apiKey], or both; and a request
    that carries the API key only. *)
Definition two_schemes : Document :=
  {| doc_security := None;
     securitySchemes :=
       Some {[ "apiKey" := "X-Api-Key"; "basic" := "Authorization" ]} |}.

Definition operation_secured : Spec :=
  {| spec_parameters := None;
     spec_security :=
       Some [[("basic", [])]; [("apiKey", [])];
             [("basic", []); ("apiKey", [])]];
     spec_requestBody := None |}.

Definition with_api_key : RequestParameters.t :=
  RequestParameters.mk ∅ {[ "X-Api-Key" := RawStr "secret" ]} ∅ ∅.

(** An operation with a request body, optional or required. *)
Definition operation_with_body (req : option bool) : Spec :=
  {| spec_parameters := None; spec_security := None;
     spec_requestBody :=
       Some {| body_required := req;
               content := [("application/json", "object")] |} |}.

(** A request whose query has [foo=abc]. *)
Definition foo_abc : RequestParameters.t :=
  RequestParameters.mk {[ "foo" := RawStr "abc" ]} ∅ ∅ ∅.

(** An operation that asks for a scheme named [ghost]. *)
Definition operation_ghost : Spec :=
  {| spec_parameters := None; spec_security := Some [[("ghost", [])]];
     spec_requestBody := None |}.

(** ** Parameter resolution *)

Section ParameterResolution.

Variable convert_parameter :
  ParameterDescriptor -> Raw -> Value + StageFailure.
Variable parameters : RequestParameters.t.

Local Abbreviation get_parameter :=
  (_get_parameter convert_parameter parameters).
Local Abbreviation loop :=
  (_get_parameters_loop convert_parameter parameters).

(** What [_get_parameter] does with a declaration, by cases on the raw
    value. *)
Lemma _get_parameter_absent param :
  RequestParameters.getitem parameters (in_ param) !! name param = None ->
  get_parameter param =
    Raise (if get (required param) false
           then MissingRequiredParameter (name param) (in_ param)
           else MissingParameter (name param) (in_ param)).
Proof.
  intros Habs. unfold _get_parameter, _get_parameter_body, _get_param_or_header.
  rewrite Habs. simpl. by destruct (get (required param) false).
Qed.

Lemma _get_parameter_present param raw :
  RequestParameters.getitem parameters (in_ param) !! name param = Some raw ->
  get_parameter param =
    match convert_parameter param raw with
    | inl v => Ok v
    | inr (validate_failure d) =>
        Raise (InvalidParameter (name param) (in_ param) (ValidateError d))
    | inr (other_failure d) =>
        Raise (ParameterValidationError (name param) (in_ param)
                 (OpenAPIError d))
    end.
Proof.
  intros Hraw. unfold _get_parameter, _get_parameter_body, _get_param_or_header.
  rewrite Hraw. by destruct (convert_parameter param raw) as [v|[d|d]].
Qed.

(** Every exception of [_get_parameter] is a parameter error about
    the declaration it was called with. *)
Lemma _get_parameter_raises param exc :
  get_parameter param = Raise exc ->
  isinstance exc cls_ParameterValidationError = true /\
  error_identity exc = Some (identity param).
Proof.
  destruct (RequestParameters.getitem parameters (in_ param) !! name param)
    as [raw|] eqn:Hraw.
  - rewrite (_get_parameter_present _ _ Hraw).
    destruct (convert_parameter param raw) as [v|[d|d]];
      intros [= <-]; done.
  - rewrite (_get_parameter_absent _ Hraw).
    destruct (get (required param) false); intros [= <-]; done.
Qed.

Lemma getattr_setitem validated l0 n0 v l n :
  Parameters.getattr (Parameters.setitem validated l0 n0 v) l !! n =
    if decide ((n, l) = (n0, l0)) then Some v
    else Parameters.getattr validated l !! n.
Proof.
  case_decide as Heq.
  - injection Heq as -> ->. destruct l0; simpl; apply lookup_insert_eq.
  - destruct l0, l; simpl; try done;
      (destruct (decide (n = n0)) as [->|Hn];
       [congruence | by rewrite lookup_insert_ne]).
Qed.

(** The loop always ends normally, and its error list is the input
    one followed by what the surviving declarations record, in
    order. *)
Lemma loop_errors params : forall errors seen validated,
  exists validated',
    loop params errors seen validated =
      Ok (errors ++ omap (fun d => recorded (get_parameter d))
                      (surviving params seen), validated').
Proof.
  induction params as [|param rest IH]; intros errors seen validated; simpl.
  - exists validated. by rewrite app_nil_r.
  - unfold identity. case_decide as Hseen; [apply IH|].
    simpl. destruct (get_parameter param) as [v|exc] eqn:Hget; simpl.
    + apply IH.
    + destruct (_get_parameter_raises _ _ Hget) as [Hcls _].
      destruct (isinstance exc cls_MissingParameter); simpl; [apply IH|].
      rewrite Hcls.
      destruct (IH (errors ++ [exc]) (seen ∪ {[(name param, in_ param)]})
                  validated) as [validated' ->].
      exists validated'. by rewrite <- app_assoc.
Qed.

(** Where the loop leaves each entry of the validated parameters:
    the entry of an identity already seen is untouched; otherwise the
    first declaration of the identity decides, and stores a value only
    when it resolves. *)
Lemma loop_validated params : forall errors seen validated errors' validated',
  loop params errors seen validated = Ok (errors', validated') ->
  forall l n,
    Parameters.getattr validated' l !! n =
      if decide ((n, l) ∈ seen) then Parameters.getattr validated l !! n
      else match first_declared params (n, l) with
           | Some d =>
               match get_parameter d with
               | Ok v => Some v
               | Raise _ => Parameters.getattr validated l !! n
               end
           | None => Parameters.getattr validated l !! n
           end.
Proof.
  induction params as [|param rest IH];
    intros errors seen validated errors' validated' Hloop l n.
  - simpl in Hloop. injection Hloop as <- <-. simpl. by case_decide.
  - simpl in Hloop. unfold first_declared. simpl. unfold identity at 1.
    fold (first_declared rest (n, l)).
    destruct (decide ((name param, in_ param) ∈ seen)) as [Hseen|Hseen].
    { rewrite (IH _ _ _ _ _ Hloop l n).
      destruct (decide ((n, l) ∈ seen)) as [Hin|Hin]; [done|].
      rewrite bool_decide_eq_false_2; [done|congruence]. }
    simpl in Hloop.
    assert (forall errs vald,
      loop rest errs (seen ∪ {[(name param, in_ param)]}) vald
        = Ok (errors', validated') ->
      Parameters.getattr validated' l !! n =
        if decide ((n, l) ∈ seen) then Parameters.getattr vald l !! n
        else if bool_decide ((name param, in_ param) = (n, l))
             then Parameters.getattr vald l !! n
             else match first_declared rest (n, l) with
                  | Some d =>
                      match get_parameter d with
                      | Ok v => Some v
                      | Raise _ => Parameters.getattr vald l !! n
                      end
                  | None => Parameters.getattr vald l !! n
                  end) as Hrest.
    { intros errs vald Hl. rewrite (IH _ _ _ _ _ Hl l n).
      destruct (decide ((name param, in_ param) = (n, l))) as [Hid|Hid].
      - rewrite decide_True by (rewrite <- Hid; apply elem_of_union_r,
                                  elem_of_singleton_2; reflexivity).
        rewrite bool_decide_eq_true_2 by done. by case_decide.
      - rewrite bool_decide_eq_false_2 by done.
        destruct (decide ((n, l) ∈ seen)) as [Hin|Hin].
        + by rewrite decide_True by (by apply elem_of_union_l).
        + rewrite decide_False; [done|].
          rewrite elem_of_union, elem_of_singleton.
          intros [?|?]; congruence. }
    assert (Hraise : forall errs exc,
      get_parameter param = Raise exc ->
      loop rest errs (seen ∪ {[(name param, in_ param)]}) validated
        = Ok (errors', validated') ->
      Parameters.getattr validated' l !! n =
        if decide ((n, l) ∈ seen) then Parameters.getattr validated l !! n
        else match (if bool_decide ((name param, in_ param) = (n, l))
                    then Some param else first_declared rest (n, l)) with
             | Some d =>
                 match get_parameter d with
                 | Ok v => Some v
                 | Raise _ => Parameters.getattr validated l !! n
                 end
             | None => Parameters.getattr validated l !! n
             end).
    { intros errs exc Hget Hl. rewrite (Hrest _ _ Hl).
      case_bool_decide; [|done]. rewrite Hget. by case_decide. }
    destruct (get_parameter param) as [v|exc] eqn:Hget.
    + rewrite (Hrest _ _ Hloop), !getattr_setitem.
      destruct (decide ((name param, in_ param) = (n, l))) as [Hid|Hid].
      * injection Hid as <- <-.
        rewrite !bool_decide_eq_true_2 by done. rewrite Hget.
        repeat case_decide; first [done | congruence].
      * rewrite !(bool_decide_eq_false_2 _ Hid).
        repeat case_decide; first [done | congruence].
    + destruct (isinstance exc cls_MissingParameter);
        [by eapply Hraise|].
      destruct (isinstance exc cls_ParameterValidationError); [|done].
      by eapply Hraise.
Qed.

(** The surviving declarations are the first declarations of the
    identities not yet seen. *)
Lemma surviving_first_declared params : forall seen d,
  (d ∈ surviving params seen) <->
  ((identity d ∉ seen) /\ first_declared params (identity d) = Some d).
Proof.
  induction params as [|param rest IH]; intros seen d; simpl.
  - split; [by intros ?%elem_of_nil | by intros [_ ?]].
  - unfold first_declared. simpl. fold (first_declared rest (identity d)).
    destruct (decide (identity param = identity d)) as [Hid|Hid].
    + rewrite (bool_decide_eq_true_2 _ Hid).
      destruct (decide (identity param ∈ seen)) as [Hseen|Hseen].
      * rewrite IH. split; intros [Hd _]; congruence.
      * rewrite elem_of_cons, IH. split.
        -- intros [->|[Hd _]]; [done|]. exfalso. apply Hd. rewrite <- Hid.
           apply elem_of_union_r, elem_of_singleton_2. reflexivity.
        -- intros [_ [= ->]]. by left.
    + rewrite (bool_decide_eq_false_2 _ Hid).
      destruct (decide (identity param ∈ seen)) as [Hseen|Hseen].
      * apply IH.
      * rewrite elem_of_cons, IH. split.
        -- intros [->|[Hd ?]]; [done|]. split; [|done].
           intros Hin. by apply Hd, elem_of_union_l.
        -- intros [Hd ?]. right. split; [|done].
           rewrite elem_of_union, elem_of_singleton. intros [?|?]; congruence.
Qed.

(** The outcome of [_get_parameters]: it raises [ParametersError]
    exactly when a surviving declaration records an error, and either
    way the validated parameters hold, for each identity, the value of
    its first declaration when that one resolves. *)
Lemma _get_parameters_outcome operation path :
  let errors :=
    omap (fun d => recorded (get_parameter d))
         (surviving (declared operation path) ∅) in
  exists validated,
    _get_parameters convert_parameter parameters operation path =
      (if truthy errors then Raise (ParametersError errors validated)
       else Ok validated) /\
    forall l n,
      Parameters.getattr validated l !! n =
        match first_declared (declared operation path) (n, l) with
        | Some d =>
            match get_parameter d with Ok v => Some v | Raise _ => None end
        | None => None
        end.
Proof.
  intros errors. unfold _get_parameters. fold (declared operation path).
  destruct (loop_errors (declared operation path) [] ∅ Parameters.empty)
    as [validated Hloop].
  rewrite Hloop. simpl. fold errors. exists validated. split; [done|].
  intros l n. rewrite (loop_validated _ _ _ _ _ _ Hloop l n).
  rewrite decide_False by apply not_elem_of_empty.
  assert (Parameters.getattr Parameters.empty l !! n = None) as ->
    by (destruct l; apply lookup_empty).
  done.
Qed.

Lemma errors_of_outcome operation path validated :
  let errors :=
    omap (fun d => recorded (get_parameter d))
         (surviving (declared operation path) ∅) in
  _get_parameters convert_parameter parameters operation path =
    (if truthy errors then Raise (ParametersError errors validated)
     else Ok validated) ->
  errors_of (_get_parameters convert_parameter parameters operation path)
    = errors /\
  validated_of (_get_parameters convert_parameter parameters operation path)
    = Some validated.
Proof.
  intros errors ->. by destruct errors.
Qed.

(** C1 (amended): for a declaration that is the first of its (name,
    location) identity in the operation-then-path order and whose name
    is absent from [parameters[location]]: with [required=true] the
    error list of the result contains [MissingRequiredParameter] for
    that name and location; with [required=false] (or no [required]
    key) no entry is stored and no error is recorded for it. *)
Theorem missing_parameter_of_first_declaration operation path d :
  first_declared (declared operation path) (identity d) = Some d ->
  RequestParameters.getitem parameters (in_ d) !! name d = None ->
  let outcome :=
    _get_parameters convert_parameter parameters operation path in
  (get (required d) false = true ->
     MissingRequiredParameter (name d) (in_ d) ∈ errors_of outcome) /\
  (get (required d) false = false ->
     (exists validated,
        validated_of outcome = Some validated /\
        Parameters.getattr validated (in_ d) !! name d = None) /\
     forall exc, exc ∈ errors_of outcome ->
                 error_identity exc <> Some (identity d)).
Proof.
  intros Hfirst Habsent outcome.
  destruct (_get_parameters_outcome operation path)
    as [validated [Hout Hval]].
  destruct (errors_of_outcome _ _ _ Hout) as [Herrors Hvalidated].
  fold outcome in Herrors, Hvalidated. rewrite Herrors.
  pose proof (_get_parameter_absent d Habsent) as Hget.
  assert (d ∈ surviving (declared operation path) ∅) as Hsurv.
  { apply surviving_first_declared. split; [apply not_elem_of_empty|done]. }
  split; intros Hreq; rewrite Hreq in Hget.
  - apply list_elem_of_omap. exists d. split; [done|]. by rewrite Hget.
  - split.
    + exists validated. split; [done|].
      rewrite Hval. change (name d, in_ d) with (identity d).
      by rewrite Hfirst, Hget.
    + intros exc [d' [Hd' Hrec]]%list_elem_of_omap Hid.
      destruct (get_parameter d') as [v|exc'] eqn:Hget'; [done|].
      destruct (_get_parameter_raises _ _ Hget') as [_ Hid'].
      simpl in Hrec.
      destruct (isinstance exc' cls_MissingParameter) eqn:Hcls; [done|].
      injection Hrec as ->.
      apply surviving_first_declared in Hd' as [_ Hfirst'].
      assert (identity d' = identity d) as Heq by congruence.
      rewrite Heq, Hfirst in Hfirst'. injection Hfirst' as <-.
      rewrite Hget in Hget'. injection Hget' as <-. done.
Qed.

End ParameterResolution.

(** C1 applied to a required [a] and to the Operation's optional
    [foo], both absent from the request. *)
Lemma missing_parameter_of_first_declaration_witness :
  first_declared (declared operation_a path_b) (identity a_required)
    = Some a_required /\
  RequestParameters.getitem only_b (in_ a_required) !! name a_required
    = None /\
  get (required a_required) false = true /\
  MissingRequiredParameter "a" Query
    ∈ errors_of (_get_parameters example_convert only_b operation_a path_b) /\
  forall exc,
    exc ∈ errors_of (_get_parameters example_convert RequestParameters.empty
                        operation_foo path_foo) ->
    error_identity exc <> Some ("foo", Query).
Proof.
  do 3 (split; [reflexivity|]). split.
  - apply (missing_parameter_of_first_declaration example_convert only_b
             operation_a path_b a_required); reflexivity.
  - apply (missing_parameter_of_first_declaration example_convert
             RequestParameters.empty operation_foo path_foo foo_optional);
      reflexivity.
Defined.

(** C1, as stated, fails on a shadowed declaration: [foo] is declared
    optional on the Operation and required on the PathItem, and the
    request has no [foo]. The PathItem's declaration is a declared
    parameter with [required=true] whose name is absent, yet it is
    skipped as already seen and no error is recorded. *)
Lemma shadowed_required_parameter_not_reported :
  foo_required ∈ declared operation_foo path_foo /\
  get (required foo_required) false = true /\
  RequestParameters.getitem RequestParameters.empty (in_ foo_required)
    !! name foo_required = None /\
  _get_parameters example_convert RequestParameters.empty
    operation_foo path_foo = Ok Parameters.empty /\
  MissingRequiredParameter (name foo_required) (in_ foo_required)
    ∉ errors_of (_get_parameters example_convert RequestParameters.empty
                   operation_foo path_foo).
Proof.
  split; [|split; [|split; [|split]]].
  - apply list_elem_of_In. simpl. auto.
  - reflexivity.
  - reflexivity.
  - vm_compute. reflexivity.
  - vm_compute. apply not_elem_of_nil.
Qed.

(** ** Security resolution *)

Section SecurityResolution.

Variable spec : Document.
Variable security_provider :
  string -> RequestParameters.t -> Value + string.
Variable parameters : RequestParameters.t.

Local Abbreviation value_of :=
  (_get_security_value spec security_provider parameters).
Local Abbreviation values := (security_values spec security_provider parameters).
Local Abbreviation loop :=
  (_get_security_loop spec security_provider parameters).

Local Abbreviation outcome :=
  (provider_outcome spec security_provider parameters).

(** The lookup of one scheme, by what the document and the provider
    give for it. *)
Lemma _get_security_value_outcome scheme_name :
  value_of scheme_name =
    match outcome scheme_name with
    | None => Raise KeyError
    | Some (inl credential) => Ok credential
    | Some (inr detail) => Raise (SecurityProviderError detail)
    end.
Proof.
  unfold _get_security_value, provider_outcome.
  destruct (securitySchemes spec) as [schemes|]; [|done].
  destruct (schemes !! scheme_name) as [scheme|]; [|done].
  by destruct (security_provider scheme parameters).
Qed.

Lemma provider_outcome_None scheme_name :
  outcome scheme_name = None <-> securitySchemes spec = None.
Proof.
  unfold provider_outcome. by destruct (securitySchemes spec).
Qed.

(** The comprehension over the schemes of an accepted alternative. *)
Lemma security_values_accepted scheme_names : forall acc,
  forallb (fun n => gives_credential (outcome n)) scheme_names = true ->
  exists found,
    values scheme_names acc = Ok found /\
    forall n, found !! n =
      if decide (n ∈ scheme_names)
      then match outcome n with Some (inl v) => Some v | _ => None end
      else acc !! n.
Proof.
  induction scheme_names as [|scheme_name rest IH]; intros acc Hall;
    cbn [security_values].
  - exists acc. split; [done|]. intros n.
    rewrite decide_False; [done|apply not_elem_of_nil].
  - cbn [forallb] in Hall. apply andb_prop in Hall as [Hhead Hall].
    rewrite _get_security_value_outcome.
    destruct (outcome scheme_name) as [[v|detail]|] eqn:Hv; try done.
    destruct (IH (<[scheme_name := v]> acc) Hall) as [found [Hfound Hlookup]].
    exists found. split; [done|]. intros n. rewrite Hlookup.
    destruct (decide (n ∈ rest)) as [Hin|Hin].
    + rewrite decide_True; [done|by right].
    + destruct (decide (n = scheme_name)) as [->|Hne].
      * rewrite decide_True by (by left).
        by rewrite lookup_insert_eq, Hv.
      * rewrite lookup_insert_ne by done.
        rewrite decide_False; [done|].
        by intros [?|?]%elem_of_cons.
Qed.

(** The comprehension over an alternative one provider of which
    refuses. *)
Lemma security_values_refused scheme_names : forall acc,
  existsb (fun n => is_refusal (outcome n)) scheme_names = true ->
  exists detail,
    values scheme_names acc = Raise (SecurityProviderError detail).
Proof.
  induction scheme_names as [|scheme_name rest IH]; intros acc Hex;
    cbn [security_values]; [done|].
  cbn [existsb] in Hex. rewrite _get_security_value_outcome.
  destruct (outcome scheme_name) as [[v|detail]|] eqn:Hv.
  - apply IH. by rewrite orb_false_l in Hex.
  - eauto.
  - apply provider_outcome_None in Hv. exfalso. clear IH acc.
    rewrite orb_false_l in Hex. apply existsb_exists in Hex as (n & _ & Hn).
    assert (outcome n = None) as Hnone by (by apply provider_outcome_None).
    by rewrite Hnone in Hn.
Qed.

(** The comprehension yields the credentials, or stops at a refusal of
    a provider, or at the [KeyError] of a document without
    [components#securitySchemes]. *)
Lemma security_values_cases scheme_names : forall acc,
  (exists found, values scheme_names acc = Ok found) \/
  (existsb (fun n => is_refusal (outcome n)) scheme_names = true /\
   exists detail,
     values scheme_names acc = Raise (SecurityProviderError detail)) \/
  (securitySchemes spec = None /\ values scheme_names acc = Raise KeyError).
Proof.
  induction scheme_names as [|n rest IH]; intros acc;
    cbn [security_values existsb]; [eauto|].
  rewrite _get_security_value_outcome.
  destruct (outcome n) as [[v|detail]|] eqn:Hv.
  - rewrite orb_false_l. apply IH.
  - right. left. eauto.
  - right. right. by apply provider_outcome_None in Hv.
Qed.

(** The alternatives that are refused are passed over, in order, and
    only add their scheme names to the attempted combinations. *)
Lemma _get_security_loop_skip before : forall rest schemes,
  forallb (refused spec security_provider parameters) before = true ->
  loop (before ++ rest) schemes = loop rest (schemes ++ (keys <$> before)).
Proof.
  induction before as [|alternative before IH]; intros rest schemes Hall.
  - simpl. by rewrite app_nil_r.
  - cbn [forallb] in Hall. apply andb_prop in Hall as [Hfail Hall].
    cbn [app _get_security_loop].
    destruct (security_values_refused (keys alternative) ∅ Hfail)
      as [detail ->].
    change (isinstance (SecurityProviderError detail)
              cls_SecurityProviderError) with true. cbn iota.
    rewrite (IH _ _ Hall). by rewrite <- app_assoc.
Qed.

(** The loop raises [SecurityNotFound] when every alternative is
    refused; the only other exception is the [KeyError] of a document
    without [components#securitySchemes]. *)
Lemma _get_security_loop_raises alternatives : forall schemes exc,
  loop alternatives schemes = Raise exc ->
  (forallb (refused spec security_provider parameters) alternatives = true /\
   exc = SecurityNotFound (schemes ++ (keys <$> alternatives))) \/
  (securitySchemes spec = None /\ exc = KeyError).
Proof.
  induction alternatives as [|alternative rest IH]; intros schemes exc;
    cbn [_get_security_loop forallb].
  - intros [= <-]. left. by rewrite app_nil_r.
  - destruct (security_values_cases (keys alternative) ∅)
      as [[found ->]|[[Href [detail ->]]|[Hnone ->]]]; [done| |].
    + change (isinstance (SecurityProviderError detail)
                cls_SecurityProviderError) with true. cbn iota.
      intros Hloop. destruct (IH _ _ Hloop) as [[Hall ->]|?]; [|by right].
      left. unfold refused at 1. rewrite Href, Hall.
      by rewrite fmap_cons, <- app_assoc.
    + change (isinstance KeyError cls_SecurityProviderError) with false.
      cbn iota. intros [= <-]. by right.
Qed.

(** The body of [_get_security] on a requirement with alternatives. *)
Lemma _get_security_body_loop operation alternatives :
  effective_security spec operation = Some alternatives ->
  alternatives <> [] ->
  _get_security_body spec security_provider parameters operation
    = loop alternatives [].
Proof.
  unfold effective_security, _get_security_body. intros Heff Hne.
  destruct (spec_security operation) as [s|].
  - injection Heff as ->. by destruct alternatives.
  - rewrite Heff. by destruct alternatives.
Qed.

Lemma _get_security_body_empty operation :
  effective_security spec operation = None \/
  effective_security spec operation = Some [] ->
  _get_security_body spec security_provider parameters operation = Ok ∅.
Proof.
  unfold effective_security, _get_security_body.
  destruct (spec_security operation) as [s|].
  - intros [?|[= ->]]; done.
  - intros [->| ->]; done.
Qed.

(** [_get_security] fails with the wrapped [SecurityNotFound] when the
    requirement has alternatives and every one is refused; the only
    other exception is the [KeyError] of a document without
    [components#securitySchemes], which the decorator lets through. *)
Lemma _get_security_raises_cases operation exc :
  _get_security spec security_provider parameters operation = Raise exc ->
  (exists alternatives,
     effective_security spec operation = Some alternatives /\
     alternatives <> [] /\
     forallb (refused spec security_provider parameters) alternatives
       = true /\
     exc = SecurityValidationError
             (SecurityNotFound (keys <$> alternatives))) \/
  (securitySchemes spec = None /\ exc = KeyError).
Proof.
  unfold _get_security.
  destruct (effective_security spec operation) as [[|alternative rest]|]
    eqn:Heff.
  - rewrite _get_security_body_empty by (by right). done.
  - rewrite (_get_security_body_loop _ _ Heff) by done.
    destruct (loop (alternative :: rest) []) as [found|exc'] eqn:Hloop;
      [done|].
    destruct (_get_security_loop_raises _ _ _ Hloop) as [[Hall ->]|[Hnone ->]].
    + intros [= <-]. left. exists (alternative :: rest). done.
    + intros [= <-]. by right.
  - rewrite _get_security_body_empty by (by left). done.
Qed.

Lemma _get_security_raises operation exc :
  _get_security spec security_provider parameters operation = Raise exc ->
  (exists attempted,
     exc = SecurityValidationError (SecurityNotFound attempted)) \/
  exc = KeyError.
Proof.
  intros Hraise.
  destruct (_get_security_raises_cases _ _ Hraise)
    as [(alternatives & _ & _ & _ & ->)|[_ ->]]; eauto.
Qed.

(** The result of [_get_security] on an accepted alternative that only
    refused ones precede. *)
Lemma _get_security_accepted operation before alternative later :
  effective_security spec operation
    = Some (before ++ alternative :: later) ->
  forallb (refused spec security_provider parameters) before = true ->
  accepted spec security_provider parameters alternative = true ->
  exists found,
    _get_security spec security_provider parameters operation = Ok found /\
    forall n, found !! n =
      if decide (n ∈ keys alternative)
      then match outcome n with Some (inl v) => Some v | _ => None end
      else None.
Proof.
  intros Heff Hbefore Hacc. unfold _get_security.
  rewrite (_get_security_body_loop _ _ Heff) by (by destruct before).
  rewrite (_get_security_loop_skip _ _ _ Hbefore).
  cbn [_get_security_loop].
  destruct (security_values_accepted (keys alternative) ∅ Hacc)
    as [found [-> Hlookup]].
  exists found. split; [done|]. intros n. rewrite Hlookup.
  by case_decide.
Qed.

(** The failure of [_get_security] when every alternative is refused. *)
Lemma _get_security_refused operation alternatives :
  effective_security spec operation = Some alternatives ->
  alternatives <> [] ->
  forallb (refused spec security_provider parameters) alternatives = true ->
  _get_security spec security_provider parameters operation
    = Raise (SecurityValidationError
               (SecurityNotFound (keys <$> alternatives))).
Proof.
  intros Heff Hne Hall. unfold _get_security.
  rewrite (_get_security_body_loop _ _ Heff Hne).
  rewrite <- (app_nil_r alternatives) at 1.
  rewrite (_get_security_loop_skip _ _ _ Hall). done.
Qed.



End SecurityResolution.


(** ** The composed pipeline *)

Section Orchestration.

Variable spec : Document.
Variable convert_parameter :
  ParameterDescriptor -> Raw -> Value + StageFailure.
Variable _convert_content_schema_value :
  string -> list (string * string) -> string -> Value + StageFailure.
Variable security_provider :
  string -> RequestParameters.t -> Value + string.
Variable path_finder : Request.t -> PathOperationServer + string.

Local Abbreviation get_security := (_get_security spec security_provider).
Local Abbreviation get_parameters := (_get_parameters convert_parameter).
Local Abbreviation get_body := (_get_body _convert_content_schema_value).
Local Abbreviation unmarshal_full :=
  (_unmarshal spec convert_parameter _convert_content_schema_value
     security_provider).
Local Abbreviation iter_errors_full :=
  (_iter_errors spec convert_parameter _convert_content_schema_value
     security_provider).

(** *** Body resolution *)

(** Every exception of [_get_body] is a body error. *)
Lemma _get_body_raises body mimetype operation exc :
  get_body body mimetype operation = Raise exc ->
  isinstance exc cls_RequestBodyValidationError = true.
Proof.
  unfold _get_body, _get_body_body, _get_body_value.
  destruct (spec_requestBody operation) as [request_body|]; [|done].
  destruct body as [[|c raw]|];
    try (destruct (get (body_required request_body) false);
         by intros [= <-]).
  destruct (_convert_content_schema_value _ _ _) as [v|[d|d]];
    by intros [= <-].
Qed.

(** A missing body, by the [required] flag of the declaration. *)
Lemma _get_body_missing body mimetype operation request_body :
  spec_requestBody operation = Some request_body ->
  body_missing body ->
  get_body body mimetype operation =
    Raise (if get (body_required request_body) false
           then MissingRequiredRequestBody else MissingRequestBody).
Proof.
  intros Hdecl Hmissing.
  unfold _get_body, _get_body_body, _get_body_value. rewrite Hdecl.
  destruct Hmissing as [-> | ->];
    by destruct (get (body_required request_body) false).
Qed.

(** *** The stages after a successful security resolution *)

Lemma _get_parameters_cases parameters operation path :
  let outcome := get_parameters parameters operation path in
  exists validated,
    validated_of outcome = Some validated /\
    outcome = (if truthy (errors_of outcome)
               then Raise (ParametersError (errors_of outcome) validated)
               else Ok validated).
Proof.
  intros outcome. subst outcome.
  destruct (_get_parameters_outcome convert_parameter parameters
              operation path) as [validated [-> _]].
  exists validated. by destruct (omap _ _).
Qed.

(** The result of the full unmarshaller: the parameter errors, then
    what is kept of the body outcome. *)
Lemma _unmarshal_after_security request operation path security :
  get_security (Request.parameters request) operation = Ok security ->
  let outcome := get_parameters (Request.parameters request) operation path in
  let body := get_body (Request.body request) (Request.mimetype request)
                operation in
  exists validated,
    validated_of outcome = Some validated /\
    unmarshal_full request operation path =
      Ok (RequestUnmarshalResult.mk
            (errors_of outcome ++ (body_outcome body).2)
            (body_outcome body).1 (Some validated) (Some security)).
Proof.
  intros Hsec outcome body. unfold _unmarshal. rewrite Hsec.
  destruct (_get_parameters_cases (Request.parameters request) operation path)
    as [validated [Hval Hout]].
  fold outcome in Hval, Hout |- *. exists validated. split; [done|].
  fold body.
  assert (match outcome with
          | Ok params => Ok (params, [])
          | Raise (ParametersError errors parameters) =>
              Ok (parameters, errors)
          | Raise exc => Raise exc
          end = Ok (validated, errors_of outcome)) as ->.
  { rewrite Hout. by destruct (errors_of outcome). }
  cbn [mbind Result_bind].
  destruct body as [v|exc] eqn:Hbody; [done|].
  apply _get_body_raises in Hbody. unfold body_outcome.
  destruct (isinstance exc cls_MissingRequestBody); [done|].
  change (isinstance exc cls_RequestBodyError)
    with (isinstance exc cls_RequestBodyValidationError).
  by rewrite Hbody.
Qed.

(** The error sequence of the full validator: the parameter errors,
    then what body resolution raised. *)
Lemma _iter_errors_after_security request operation path security :
  get_security (Request.parameters request) operation = Ok security ->
  iter_errors_full request operation path =
    (errors_of (get_parameters (Request.parameters request) operation path)
       ++ body_yielded (get_body (Request.body request)
                          (Request.mimetype request) operation),
     None).
Proof.
  intros Hsec. unfold _iter_errors. rewrite Hsec.
  destruct (_get_parameters_outcome convert_parameter
              (Request.parameters request) operation path)
    as [validated [Hout _]].
  destruct (errors_of_outcome _ _ _ _ _ Hout) as [-> _]. rewrite Hout.
  destruct (get_body _ _ _) as [v|exc] eqn:Hbody.
  - by destruct (omap _ _).
  - apply _get_body_raises in Hbody. rewrite Hbody.
    by destruct (omap _ _).
Qed.

(** The only exception that leaves [_unmarshal] is the [KeyError] of
    security resolution on a document without
    [components#securitySchemes], and it leaves [_iter_errors] too. *)
Lemma _unmarshal_raises request operation path exc :
  unmarshal_full request operation path = Raise exc ->
  securitySchemes spec = None /\ exc = KeyError /\
  get_security (Request.parameters request) operation = Raise KeyError /\
  iter_errors_full request operation path = ([], Some KeyError).
Proof.
  destruct (get_security (Request.parameters request) operation)
    as [security|exc'] eqn:Hsec.
  - destruct (_unmarshal_after_security request operation path security
                Hsec) as [validated [_ ->]]. done.
  - unfold _unmarshal, _iter_errors. rewrite Hsec.
    destruct (_get_security_raises_cases _ _ _ _ _ Hsec)
      as [(alternatives & _ & _ & _ & ->)|[Hnone ->]]; [done|].
    change (isinstance KeyError cls_SecurityError) with false.
    change (isinstance KeyError cls_SecurityValidationError) with false.
    cbn iota. by intros [= <-].
Qed.

(** The two modes report the same errors, in the same order, unless
    body resolution raises [MissingRequestBody]: the unmarshaller
    drops that one, the validator yields it. An exception that leaves
    the one leaves the other, with no error before it. *)
Lemma modes_agree_unless_optional_body_missing request operation path :
  get_body (Request.body request) (Request.mimetype request) operation
    <> Raise MissingRequestBody ->
  match unmarshal_full request operation path with
  | Ok result =>
      iter_errors_full request operation path
        = (RequestUnmarshalResult.errors result, None)
  | Raise exc => iter_errors_full request operation path = ([], Some exc)
  end.
Proof.
  intros Hbody.
  destruct (unmarshal_full request operation path) as [result|exc] eqn:Hun.
  - destruct (get_security (Request.parameters request) operation)
      as [security|exc] eqn:Hsec.
    + destruct (_unmarshal_after_security request operation path security
                  Hsec) as [validated [_ Hresult]].
      rewrite Hresult in Hun. injection Hun as <-.
      rewrite (_iter_errors_after_security request operation path security
                 Hsec).
      cbn [RequestUnmarshalResult.errors]. do 2 f_equal.
      destruct (get_body _ _ _) as [v|exc]; [done|].
      unfold body_outcome, body_yielded.
      by destruct exc.
    + revert Hun. unfold _unmarshal, _iter_errors. rewrite Hsec.
      destruct (_get_security_raises _ _ _ _ _ Hsec) as [[attempted ->]| ->].
      * by intros [= <-].
      * done.
  - by destruct (_unmarshal_raises _ _ _ _ Hun) as (_ & -> & _ & ->).
Qed.

(** *** Properties of the composed pipeline *)

(** C2: the validated parameters that come out of parameter
    resolution hold exactly the parameters that resolved: an entry
    [name -> v] at a location is there iff the first declaration of
    that (name, location) resolved to [v], and a parameter whose
    extraction or validation failed has no entry. When resolution ends
    with errors, the error list is not empty, and the results of
    [_unmarshal] and of [_unmarshal_parameters] carry these partially
    built parameters with the errors. ([_unmarshal_parameters] hands
    its arguments over in the other order, hence [path operation]
    below.) *)
Theorem partial_parameters_retained request operation path :
  let outcome := get_parameters (Request.parameters request) operation path in
  (forall validated, validated_of outcome = Some validated ->
     (forall l n v,
        Parameters.getattr validated l !! n = Some v <->
        exists d,
          first_declared (declared operation path) (n, l) = Some d /\
          _get_parameter convert_parameter (Request.parameters request) d
            = Ok v) /\
     (forall d exc,
        first_declared (declared operation path) (identity d) = Some d ->
        _get_parameter convert_parameter (Request.parameters request) d
          = Raise exc ->
        Parameters.getattr validated (in_ d) !! name d = None)) /\
  (forall errors validated,
     outcome = Raise (ParametersError errors validated) ->
     errors <> [] /\
     (forall security,
        get_security (Request.parameters request) operation = Ok security ->
        exists body body_errors,
          unmarshal_full request operation path =
            Ok (RequestUnmarshalResult.mk (errors ++ body_errors) body
                  (Some validated) (Some security))) /\
     _unmarshal_parameters convert_parameter request path operation =
       Ok (RequestUnmarshalResult.mk errors VNone (Some validated) None)).
Proof.
  intros outcome.
  destruct (_get_parameters_outcome convert_parameter
              (Request.parameters request) operation path)
    as [validated0 [Hout Hval]].
  destruct (errors_of_outcome _ _ _ _ _ Hout) as [Herrors Hvalidated].
  fold outcome in Hout, Herrors, Hvalidated. split.
  - intros validated Hv. rewrite Hvalidated in Hv. injection Hv as <-.
    split.
    + intros l n v. rewrite Hval. split.
      * destruct (first_declared _ _) as [d|]; [|done].
        destruct (_get_parameter _ _ d) as [v'|exc] eqn:Hget; [|done].
        intros [= ->]. eauto.
      * intros [d [-> ->]]. done.
    + intros d exc Hfirst Hget. rewrite Hval.
      change (name d, in_ d) with (identity d). by rewrite Hfirst, Hget.
  - intros errors validated Hraise. split; [|split].
    + rewrite Hraise in Herrors. simpl in Herrors.
      rewrite Hraise in Hout. rewrite <- Herrors in Hout.
      by destruct errors.
    + intros security Hsec.
      destruct (_unmarshal_after_security request operation path security
                  Hsec) as [validated' [Hv' ->]].
      fold outcome in Hv' |- *. rewrite Hraise in Hv' |- *.
      injection Hv' as <-. simpl. eauto.
    + unfold _unmarshal_parameters. fold outcome. by rewrite Hraise.
Qed.

(** C5: when security resolution fails with a security error, the one
    that [except SecurityValidationError] and [except SecurityError]
    catch, the failure is the wrapped [SecurityNotFound]; the result of
    [_unmarshal] has this error only and no parameters, body or
    security; the error sequence of [_iter_errors] is this error and
    nothing else, and [validate] raises it. The same holds through the
    entry points [APICallRequestUnmarshaller.unmarshal] and
    [APICallRequestValidator.iter_errors] once the path is found. *)
Theorem security_failure_is_terminal request exc :
  isinstance exc cls_SecurityValidationError = true ->
  (forall operation path,
     get_security (Request.parameters request) operation = Raise exc ->
     (exists attempted,
        exc = SecurityValidationError (SecurityNotFound attempted)) /\
     unmarshal_full request operation path =
       Ok (RequestUnmarshalResult.mk [exc] VNone None None) /\
     iter_errors_full request operation path = ([exc], None) /\
     validate (fun r => iter_errors_full r operation path) request
       = Raise exc) /\
  (forall found,
     path_finder request = inl found ->
     get_security (Request.parameters (with_path_variables request found))
       (found_operation found) = Raise exc ->
     APICallRequestUnmarshaller_unmarshal spec convert_parameter
       _convert_content_schema_value security_provider path_finder request
       = Ok (RequestUnmarshalResult.mk [exc] VNone None None) /\
     APICallRequestValidator_iter_errors spec convert_parameter
       _convert_content_schema_value security_provider path_finder request
       = ([exc], None) /\
     validate
       (APICallRequestValidator_iter_errors spec convert_parameter
          _convert_content_schema_value security_provider path_finder)
       request = Raise exc).
Proof.
  intros Hcls.
  assert (forall r operation path,
    get_security (Request.parameters r) operation = Raise exc ->
    (exists attempted,
       exc = SecurityValidationError (SecurityNotFound attempted)) /\
    unmarshal_full r operation path =
      Ok (RequestUnmarshalResult.mk [exc] VNone None None) /\
    iter_errors_full r operation path = ([exc], None)) as Hstage.
  { intros r operation path Hsec.
    destruct (_get_security_raises _ _ _ _ _ Hsec) as [[attempted ->]| ->];
      [|discriminate Hcls].
    split; [eauto|]. unfold _unmarshal, _iter_errors. by rewrite Hsec. }
  split.
  - intros operation path Hsec.
    destruct (Hstage request operation path Hsec) as (Hexc & Hun & Hit).
    repeat split; try done. unfold validate. by rewrite Hit.
  - intros found Hfound Hsec.
    destruct (Hstage _ _ (found_path found) Hsec) as (_ & Hun & Hit).
    unfold APICallRequestUnmarshaller_unmarshal, unmarshal_with, validate,
      APICallRequestValidator_iter_errors, _find_path.
    rewrite Hfound. cbn zeta. by rewrite Hun, Hit.
Qed.

(** C6: when the path finder finds no operation for the request, the
    error sequence of the validator is the [PathError] alone and
    [validate] raises it; the result of the unmarshaller has this
    error only and no body, parameters or security. The Body,
    Parameters and Security variants do the same. *)
Theorem unmatched_request_is_terminal request detail :
  path_finder request = inr detail ->
  let routing := PathError detail in
  let terminal := RequestUnmarshalResult.mk [routing] VNone None None in
  APICallRequestValidator_iter_errors spec convert_parameter
    _convert_content_schema_value security_provider path_finder request
    = ([routing], None) /\
  validate
    (APICallRequestValidator_iter_errors spec convert_parameter
       _convert_content_schema_value security_provider path_finder)
    request = Raise routing /\
  APICallRequestUnmarshaller_unmarshal spec convert_parameter
    _convert_content_schema_value security_provider path_finder request
    = Ok terminal /\
  APICallRequestBodyValidator_iter_errors _convert_content_schema_value
    path_finder request = ([routing], None) /\
  APICallRequestParametersValidator_iter_errors convert_parameter
    path_finder request = ([routing], None) /\
  APICallRequestSecurityValidator_iter_errors spec security_provider
    path_finder request = ([routing], None) /\
  APICallRequestBodyUnmarshaller_unmarshal _convert_content_schema_value
    path_finder request = Ok terminal /\
  APICallRequestParametersUnmarshaller_unmarshal convert_parameter
    path_finder request = Ok terminal /\
  APICallRequestSecurityUnmarshaller_unmarshal spec security_provider
    path_finder request = Ok terminal.
Proof.
  intros Hfind routing terminal.
  unfold APICallRequestValidator_iter_errors, validate,
    APICallRequestUnmarshaller_unmarshal,
    APICallRequestBodyValidator_iter_errors,
    APICallRequestParametersValidator_iter_errors,
    APICallRequestSecurityValidator_iter_errors,
    APICallRequestBodyUnmarshaller_unmarshal,
    APICallRequestParametersUnmarshaller_unmarshal,
    APICallRequestSecurityUnmarshaller_unmarshal,
    unmarshal_with, _find_path.
  rewrite Hfind. by repeat split.
Qed.

(** C8: for an operation that declares a request body and a request
    whose body is absent or empty. With [required=true] body
    resolution raises [MissingRequiredRequestBody]: it is the error of
    the BodyOnly result, and in the full result it follows the
    parameter errors; the body is absent. With [required=false] (or no
    [required] key) body resolution adds no error: the BodyOnly result
    has no error, the full result has the parameter errors only; the
    body is absent. *)
Theorem missing_body_by_required_flag request operation path request_body :
  spec_requestBody operation = Some request_body ->
  body_missing (Request.body request) ->
  let param_errors :=
    errors_of (get_parameters (Request.parameters request) operation path) in
  (get (body_required request_body) false = true ->
     _unmarshal_body _convert_content_schema_value request operation path =
       Ok (RequestUnmarshalResult.mk [MissingRequiredRequestBody] VNone
             None None) /\
     forall security,
       get_security (Request.parameters request) operation = Ok security ->
       exists validated,
         unmarshal_full request operation path =
           Ok (RequestUnmarshalResult.mk
                 (param_errors ++ [MissingRequiredRequestBody]) VNone
                 (Some validated) (Some security))) /\
  (get (body_required request_body) false = false ->
     _unmarshal_body _convert_content_schema_value request operation path =
       Ok (RequestUnmarshalResult.mk [] VNone None None) /\
     forall security,
       get_security (Request.parameters request) operation = Ok security ->
       exists validated,
         unmarshal_full request operation path =
           Ok (RequestUnmarshalResult.mk param_errors VNone
                 (Some validated) (Some security))).
Proof.
  intros Hdecl Hmissing param_errors.
  pose proof (_get_body_missing _ (Request.mimetype request) _ _
                Hdecl Hmissing) as Hbody.
  split; intros Hreq; rewrite Hreq in Hbody; (split;
    [unfold _unmarshal_body; by rewrite Hbody|]);
    intros security Hsec;
    destruct (_unmarshal_after_security request operation path security
                Hsec) as [validated [_ ->]];
    exists validated; rewrite Hbody; fold param_errors; simpl;
    by rewrite ?app_nil_r.
Qed.

End Orchestration.

(** C2 on the declarations [a] (required, on the Operation) and [b]
    (on the PathItem) and a request whose query has only [b]: one
    error, for [a], and the entry of [b] is kept. *)
Lemma partial_parameters_retained_witness :
  let request := request_of None only_b in
  let errors := [MissingRequiredParameter "a" Query] in
  let validated := Parameters.mk {[ "b" := VStr "1" ]} ∅ ∅ ∅ in
  _get_parameters example_convert (Request.parameters request)
    operation_a path_b = Raise (ParametersError errors validated) /\
  errors <> [] /\
  _unmarshal_parameters example_convert request path_b operation_a =
    Ok (RequestUnmarshalResult.mk errors VNone (Some validated) None).
Proof.
  intros request errors validated.
  assert (_get_parameters example_convert (Request.parameters request)
            operation_a path_b = Raise (ParametersError errors validated))
    as Hraise by (vm_compute; reflexivity).
  destruct (partial_parameters_retained no_security example_convert
              example_convert_body example_provider request operation_a path_b)
    as [_ Herr].
  destruct (Herr errors validated Hraise) as (Hne & _ & Hkept).
  split; [exact Hraise|]. split; [exact Hne|exact Hkept].
Defined.

(** C5 on the secured operation and a request with no credential. *)
Lemma security_failure_is_terminal_witness :
  let request := request_of None RequestParameters.empty in
  let exc :=
    SecurityValidationError
      (SecurityNotFound [["basic"]; ["apiKey"]; ["basic"; "apiKey"]]) in
  _get_security two_schemes example_provider (Request.parameters request)
    operation_secured = Raise exc /\
  _unmarshal two_schemes example_convert example_convert_body
    example_provider request operation_secured (node None)
    = Ok (RequestUnmarshalResult.mk [exc] VNone None None) /\
  _iter_errors two_schemes example_convert example_convert_body
    example_provider request operation_secured (node None) = ([exc], None).
Proof.
  intros request exc.
  assert (_get_security two_schemes example_provider
            (Request.parameters request) operation_secured = Raise exc)
    as Hfail by (vm_compute; reflexivity).
  destruct (security_failure_is_terminal two_schemes example_convert
              example_convert_body example_provider
              (example_finder (node None) operation_secured) request exc
              eq_refl)
    as [Hstage _].
  destruct (Hstage operation_secured (node None) Hfail) as (_ & Hun & Hit & _).
  split; [exact Hfail|]. split; [exact Hun|exact Hit].
Defined.

(** C6 on a request for a path that the document does not have. *)
Lemma unmatched_request_is_terminal_witness :
  let request :=
    Request.mk "get" "/owners" "application/json" None
      RequestParameters.empty in
  let finder := example_finder path_b operation_a in
  finder request = inr "path not found" /\
  APICallRequestValidator_iter_errors no_security example_convert
    example_convert_body example_provider finder request
    = ([PathError "path not found"], None) /\
  APICallRequestUnmarshaller_unmarshal no_security example_convert
    example_convert_body example_provider finder request
    = Ok (RequestUnmarshalResult.mk [PathError "path not found"] VNone
            None None).
Proof.
  intros request finder.
  assert (finder request = inr "path not found") as Hfind by reflexivity.
  destruct (unmatched_request_is_terminal no_security example_convert
              example_convert_body example_provider finder request
              "path not found" Hfind) as (Hit & _ & Hun & _).
  split; [exact Hfind|]. split; [exact Hit|exact Hun].
Defined.

(** C8 on a request without body, for a required and for an optional
    request body. *)
Lemma missing_body_by_required_flag_witness :
  let request := request_of None RequestParameters.empty in
  _unmarshal_body example_convert_body request
    (operation_with_body (Some true)) (node None)
    = Ok (RequestUnmarshalResult.mk [MissingRequiredRequestBody] VNone
            None None) /\
  _unmarshal_body example_convert_body request
    (operation_with_body None) (node None)
    = Ok (RequestUnmarshalResult.mk [] VNone None None).
Proof.
  intros request. split.
  - refine (proj1 (proj1 (missing_body_by_required_flag no_security
                            example_convert example_convert_body
                            example_provider request
                            (operation_with_body (Some true)) (node None)
                            _ eq_refl (or_introl eq_refl)) eq_refl)).
  - refine (proj1 (proj2 (missing_body_by_required_flag no_security
                            example_convert example_convert_body
                            example_provider request
                            (operation_with_body None) (node None)
                            _ eq_refl (or_introl eq_refl)) eq_refl)).
Defined.

(** ** Precedence of the Operation's declarations *)

(** In the order [_get_parameters] is given by [_iter_errors] and
    [_unmarshal], a (name, location) declared on the Operation is
    governed by the Operation's declaration, whatever the PathItem
    declares; the PathItem's declaration governs only the identities the
    Operation does not declare. *)
Lemma operation_declaration_governs operation path id :
  first_declared (declared operation path) id =
    match first_declared (get (spec_parameters operation) []) id with
    | Some d => Some d
    | None => first_declared (get (spec_parameters path) []) id
    end.
Proof.
  unfold declared, first_declared.
  induction (get (spec_parameters operation) []) as [|d rest IH]; [done|].
  simpl. by destruct (bool_decide (identity d = id)).
Qed.

(** ** Where the code departs from the specification *)

(** C3: [foo] in the query is declared on the Operation (optional,
    integer) and on the PathItem (required, string). In the full
    pipeline the Operation's declaration governs: [foo=abc] is an
    invalid integer, and a request without [foo] is accepted. The
    ParametersOnly entry points hand the PathItem over as the operation
    and the Operation as the path, so there the PathItem's declaration
    governs: [foo=abc] is accepted as a string, and a request without
    [foo] misses a required parameter. *)
Theorem parameters_only_lets_the_path_item_govern :
  let finder := example_finder path_foo operation_foo in
  let full_errors :=
    APICallRequestValidator_iter_errors no_security example_convert
      example_convert_body example_provider finder in
  let full :=
    APICallRequestUnmarshaller_unmarshal no_security example_convert
      example_convert_body example_provider finder in
  let only_errors :=
    APICallRequestParametersValidator_iter_errors example_convert finder in
  let only :=
    APICallRequestParametersUnmarshaller_unmarshal example_convert finder in
  let invalid :=
    InvalidParameter "foo" Query (ValidateError "not an integer") in
  let missing := MissingRequiredParameter "foo" Query in
  let accepted := Parameters.mk {[ "foo" := VStr "abc" ]} ∅ ∅ ∅ in
  let with_foo := request_of None foo_abc in
  let without_foo := request_of None RequestParameters.empty in
  full_errors with_foo = ([invalid], None) /\
  full with_foo =
    Ok (RequestUnmarshalResult.mk [invalid] VNone (Some Parameters.empty)
          (Some ∅)) /\
  only_errors with_foo = ([], None) /\
  only with_foo =
    Ok (RequestUnmarshalResult.mk [] VNone (Some accepted) None) /\
  full_errors without_foo = ([], None) /\
  full without_foo =
    Ok (RequestUnmarshalResult.mk [] VNone (Some Parameters.empty) (Some ∅)) /\
  only_errors without_foo = ([missing], None) /\
  only without_foo =
    Ok (RequestUnmarshalResult.mk [missing] VNone (Some Parameters.empty)
          None).
Proof.
  repeat split; vm_compute; reflexivity.
Qed.

(** C4: [a] is required on the Operation and [b] on the PathItem, and
    the request has neither. The parameters stage of the full pipeline
    reports [a] then [b]; the ParametersOnly variant reports [b] then
    [a], and its fail-fast [validate] raises the error for [b] where the
    full pipeline raises the one for [a]. *)
Theorem parameters_only_differs_from_the_parameters_stage :
  let finder := example_finder path_b operation_a in
  let request := request_of None RequestParameters.empty in
  let missing_a := MissingRequiredParameter "a" Query in
  let missing_b := MissingRequiredParameter "b" Query in
  finder request =
    inl {| found_path := path_b; found_operation := operation_a;
           path_result_variables := ∅ |} /\
  errors_of (_get_parameters example_convert (Request.parameters request)
               operation_a path_b) = [missing_a; missing_b] /\
  APICallRequestUnmarshaller_unmarshal no_security example_convert
    example_convert_body example_provider finder request =
    Ok (RequestUnmarshalResult.mk [missing_a; missing_b] VNone
          (Some Parameters.empty) (Some ∅)) /\
  APICallRequestParametersUnmarshaller_unmarshal example_convert finder
    request =
    Ok (RequestUnmarshalResult.mk [missing_b; missing_a] VNone
          (Some Parameters.empty) None) /\
  APICallRequestParametersValidator_iter_errors example_convert finder
    request = ([missing_b; missing_a], None) /\
  validate (APICallRequestParametersValidator_iter_errors example_convert
              finder) request = Raise missing_b /\
  validate (APICallRequestValidator_iter_errors no_security example_convert
              example_convert_body example_provider finder) request
    = Raise missing_a.
Proof.
  repeat split; vm_compute; reflexivity.
Qed.

(** C9: the operation declares an optional request body and the request
    has none. [validate] is the first element of [iter_errors], but
    that sequence holds [MissingRequestBody], which [unmarshal] does not
    report: the validator rejects a request that the unmarshaller
    accepts without error. *)
Theorem validate_reports_what_unmarshal_drops :
  let finder := example_finder (node None) (operation_with_body None) in
  let request := request_of None RequestParameters.empty in
  let iter_errors :=
    APICallRequestValidator_iter_errors no_security example_convert
      example_convert_body example_provider finder in
  iter_errors request = ([MissingRequestBody], None) /\
  validate iter_errors request = Raise MissingRequestBody /\
  APICallRequestUnmarshaller_unmarshal no_security example_convert
    example_convert_body example_provider finder request =
    Ok (RequestUnmarshalResult.mk [] VNone (Some Parameters.empty) (Some ∅)) /\
  APICallRequestBodyValidator_iter_errors example_convert_body finder request
    = ([MissingRequestBody], None) /\
  APICallRequestBodyUnmarshaller_unmarshal example_convert_body finder request
    = Ok (RequestUnmarshalResult.mk [] VNone None None).
Proof.
  repeat split; vm_compute; reflexivity.
Qed.

(** ** Path resolution of the classes *)

(** No class of the two modules derives from both base validators. *)
Lemma base_validators_exclusive c :
  bool_decide (BaseAPICallValidator ∈ mro c)
    && bool_decide (BaseWebhookValidator ∈ mro c) = false.
Proof.
  destruct c; vm_compute; reflexivity.
Qed.

(** C10: every concrete API-call class of the two dialects, validator
    or unmarshaller, derives from [BaseAPICallValidator], and so
    resolves paths server-relative; every concrete webhook class
    derives from [BaseWebhookValidator], and so resolves them
    webhook-relative. Over all the classes of the two modules, the
    webhook-relative variant is that of the classes that derive from
    [BaseWebhookValidator] and of no other, and the server-relative
    variant is that of the classes that derive from
    [BaseAPICallValidator]. The attribute [path_finder_cls], which
    [V31RequestValidator] sets to the webhook finder as the webhook
    classes do, is read by no function of the two modules and does not
    enter the variant. *)
Theorem api_call_classes_resolve_server_relative :
  Forall (fun c => path_finder_variant c = Some APICallPathFinder)
         api_call_classes /\
  Forall (fun c => path_finder_variant c = Some WebhookPathFinder)
         webhook_classes /\
  (forall c, path_finder_variant c = Some WebhookPathFinder <->
             BaseWebhookValidator ∈ mro c) /\
  (forall c, path_finder_variant c = Some APICallPathFinder <->
             BaseAPICallValidator ∈ mro c) /\
  path_finder_cls V31RequestValidator = Some WebhookPathFinder /\
  path_finder_cls V30RequestValidator = None.
Proof.
  split.
  { unfold api_call_classes.
    repeat match goal with
           | |- Forall _ (_ :: _) => constructor
           | |- Forall _ [] => constructor
           end; vm_compute; reflexivity. }
  split.
  { unfold webhook_classes.
    repeat match goal with
           | |- Forall _ (_ :: _) => constructor
           | |- Forall _ [] => constructor
           end; vm_compute; reflexivity. }
  split; [|split].
  - intros c. pose proof (base_validators_exclusive c) as Hexclusive.
    unfold path_finder_variant.
    etrans; [|apply bool_decide_eq_true]. revert Hexclusive.
    destruct (bool_decide (BaseAPICallValidator ∈ mro c));
      destruct (bool_decide (BaseWebhookValidator ∈ mro c));
      split; done.
  - intros c. unfold path_finder_variant.
    etrans; [|apply bool_decide_eq_true].
    destruct (bool_decide (BaseAPICallValidator ∈ mro c));
      destruct (bool_decide (BaseWebhookValidator ∈ mro c));
      split; done.
  - split; vm_compute; reflexivity.
Qed.

(** C10 on the two classes that the 3.1 dialect offers for a full
    request: the API-call one is server-relative, the webhook one is
    webhook-relative, and a class with the webhook variant derives from
    [BaseWebhookValidator]. *)
Lemma api_call_classes_resolve_server_relative_witness :
  path_finder_variant V31RequestValidator = Some APICallPathFinder /\
  path_finder_variant V31RequestUnmarshaller = Some APICallPathFinder /\
  BaseWebhookValidator ∈ mro V31WebhookRequestValidator.
Proof.
  destruct api_call_classes_resolve_server_relative
    as (_ & _ & Hwebhook & _).
  split; [vm_compute; reflexivity|].
  split; [vm_compute; reflexivity|].
  apply (Hwebhook V31WebhookRequestValidator). vm_compute. reflexivity.
Defined.

(** ** Further properties of parameter resolution *)

Section ParameterInvariants.

Variable convert_parameter :
  ParameterDescriptor -> Raw -> Value + StageFailure.

Local Abbreviation get_parameter := (_get_parameter convert_parameter).

(** What a surviving declaration records is a parameter error about it,
    and never the error of an optional parameter that is missing. *)
Lemma recorded_error parameters d exc :
  recorded (get_parameter parameters d) = Some exc ->
  get_parameter parameters d = Raise exc /\
  error_identity exc = Some (identity d) /\
  isinstance exc cls_ParameterValidationError = true /\
  isinstance exc cls_MissingParameter = false.
Proof.
  destruct (get_parameter parameters d) as [v|exc'] eqn:Hget; [done|].
  simpl. destruct (isinstance exc' cls_MissingParameter) eqn:Hcls; [done|].
  intros [= <-].
  destruct (_get_parameter_raises _ _ _ _ Hget) as [Hpve Hid]. done.
Qed.

Lemma surviving_sublist params : forall seen,
  surviving params seen `sublist_of` params.
Proof.
  induction params as [|d rest IH]; intros seen; simpl; [done|].
  case_decide; [by apply sublist_cons|by apply sublist_skip].
Qed.

Lemma surviving_NoDup params : forall seen,
  NoDup (identity <$> surviving params seen).
Proof.
  induction params as [|d rest IH]; intros seen; simpl; [constructor|].
  case_decide as Hseen; [apply IH|].
  rewrite fmap_cons. constructor; [|apply IH].
  intros (d' & Hid & Hd')%list_elem_of_fmap.
  apply surviving_first_declared in Hd' as [Hnot _].
  apply Hnot. rewrite <- Hid.
  apply elem_of_union_r, elem_of_singleton_2. reflexivity.
Qed.

Lemma first_declared_Some params id d :
  first_declared params id = Some d -> d ∈ params /\ identity d = id.
Proof.
  unfold first_declared. intros [Hin Hid]%find_some.
  split; [by apply list_elem_of_In|]. by apply bool_decide_eq_true_1 in Hid.
Qed.

Lemma first_declared_app a b id :
  first_declared (a ++ b) id =
    match first_declared a id with
    | Some d => Some d
    | None => first_declared b id
    end.
Proof.
  unfold first_declared. induction a as [|d rest IH]; [done|].
  simpl. by destruct (bool_decide (identity d = id)).
Qed.

Lemma Parameters_eq (p q : Parameters.t) :
  (forall l n, Parameters.getattr p l !! n = Parameters.getattr q l !! n) ->
  p = q.
Proof.
  intros Heq. destruct p, q. f_equal; apply map_eq; intros n.
  - apply (Heq Query n).
  - apply (Heq Header n).
  - apply (Heq Cookie n).
  - apply (Heq Path n).
Qed.

Lemma recorded_identities parameters l :
  omap error_identity (omap (fun d => recorded (get_parameter parameters d)) l)
    `sublist_of` (identity <$> l) /\
  length (omap error_identity
            (omap (fun d => recorded (get_parameter parameters d)) l))
    = length (omap (fun d => recorded (get_parameter parameters d)) l).
Proof.
  induction l as [|d rest [IHs IHl]]; [done|].
  cbn [omap list_omap fmap list_fmap].
  destruct (recorded (get_parameter parameters d)) as [exc|] eqn:Hrec.
  - destruct (recorded_error _ _ _ Hrec) as (_ & Hid & _).
    cbn [omap list_omap]. rewrite Hid. cbn [length]. split; [by apply sublist_skip|].
    by rewrite IHl.
  - split; [by apply sublist_cons|done].
Qed.

(** X6: the errors of parameter resolution follow the declarations.
    Every error is a parameter error about a declared (name, location)
    and none is the [MissingParameter] of an optional parameter; no two
    errors are about the same (name, location); and the errors come in
    the order of the declarations, the Operation's first. *)
Theorem parameter_errors_follow_the_declarations parameters operation path :
  let errors :=
    errors_of (_get_parameters convert_parameter parameters operation path) in
  (forall exc, exc ∈ errors ->
     isinstance exc cls_ParameterValidationError = true /\
     isinstance exc cls_MissingParameter = false /\
     exists d, d ∈ declared operation path /\
               error_identity exc = Some (identity d)) /\
  length (omap error_identity errors) = length errors /\
  NoDup (omap error_identity errors) /\
  omap error_identity errors `sublist_of` (identity <$> declared operation path).
Proof.
  intros errors.
  destruct (_get_parameters_outcome convert_parameter parameters
              operation path) as [validated [Hout _]].
  destruct (errors_of_outcome _ _ _ _ _ Hout) as [Herrors _].
  subst errors. rewrite Herrors.
  set (S := surviving (declared operation path) ∅).
  destruct (recorded_identities parameters S) as [Hsub Hlen].
  assert (identity <$> S `sublist_of` identity <$> declared operation path)
    as HS by apply fmap_sublist, surviving_sublist.
  split; [|split; [done|split]].
  - intros exc (d & Hd & Hrec)%list_elem_of_omap.
    destruct (recorded_error _ _ _ Hrec) as (_ & Hid & Hpve & Hmiss).
    repeat split; try done. exists d. split; [|done].
    eapply elem_of_sublist; [exact Hd|apply surviving_sublist].
  - eapply sublist_NoDup; [apply surviving_NoDup|exact Hsub].
  - by etrans.
Qed.

(** X7: parameter resolution reads the request only at the declared
    (name, location) pairs: two requests that agree there get the same
    outcome, whatever else they carry. *)
Theorem undeclared_parameters_are_ignored parameters1 parameters2
    operation path :
  (forall d, d ∈ declared operation path ->
     RequestParameters.getitem parameters1 (in_ d) !! name d =
     RequestParameters.getitem parameters2 (in_ d) !! name d) ->
  _get_parameters convert_parameter parameters1 operation path =
  _get_parameters convert_parameter parameters2 operation path.
Proof.
  intros Hagree. unfold _get_parameters. fold (declared operation path).
  assert (forall params errors seen validated,
    (forall d, d ∈ params ->
       RequestParameters.getitem parameters1 (in_ d) !! name d =
       RequestParameters.getitem parameters2 (in_ d) !! name d) ->
    _get_parameters_loop convert_parameter parameters1 params errors seen
      validated =
    _get_parameters_loop convert_parameter parameters2 params errors seen
      validated) as Hloop.
  { induction params as [|d rest IH]; intros errors seen validated Hd; [done|].
    cbn [_get_parameters_loop].
    assert (get_parameter parameters1 d = get_parameter parameters2 d) as ->.
    { unfold _get_parameter, _get_parameter_body, _get_param_or_header.
      rewrite (Hd d) by (by left). done. }
    assert (forall e s v,
      _get_parameters_loop convert_parameter parameters1 rest e s v =
      _get_parameters_loop convert_parameter parameters2 rest e s v) as Hrest.
    { intros e s v. apply IH. intros d' Hd'. apply Hd. by right. }
    case_decide; [apply Hrest|].
    destruct (get_parameter parameters2 d) as [v|exc]; [apply Hrest|].
    destruct (isinstance exc cls_MissingParameter); [apply Hrest|].
    destruct (isinstance exc cls_ParameterValidationError); [apply Hrest|done]. }
  by rewrite (Hloop _ _ _ _ Hagree).
Qed.

(** X8: when the Operation and the PathItem declare no common (name,
    location), the order in which [_get_parameters] is given them does
    not change the validated parameters, and changes the errors only in
    their order. The call of the ParametersOnly variants, with the two
    arguments exchanged, then differs from the full pipeline by the
    order of the errors alone. *)
Theorem exchanged_arguments_with_disjoint_declarations parameters
    operation path :
  (forall d1 d2,
     d1 ∈ get (spec_parameters operation) [] ->
     d2 ∈ get (spec_parameters path) [] ->
     identity d1 <> identity d2) ->
  let full := _get_parameters convert_parameter parameters operation path in
  let exchanged :=
    _get_parameters convert_parameter parameters path operation in
  validated_of full = validated_of exchanged /\
  errors_of full ≡ₚ errors_of exchanged.
Proof.
  intros Hdisjoint full exchanged.
  assert (forall id,
    first_declared (declared operation path) id =
    first_declared (declared path operation) id) as Hfirst.
  { intros id. unfold declared. rewrite !first_declared_app.
    destruct (first_declared (get (spec_parameters operation) []) id)
      as [d1|] eqn:H1;
      destruct (first_declared (get (spec_parameters path) []) id)
        as [d2|] eqn:H2; try done.
    apply first_declared_Some in H1 as [Hin1 Hid1].
    apply first_declared_Some in H2 as [Hin2 Hid2].
    destruct (Hdisjoint d1 d2 Hin1 Hin2). congruence. }
  destruct (_get_parameters_outcome convert_parameter parameters
              operation path) as [v1 [Hout1 Hval1]].
  destruct (_get_parameters_outcome convert_parameter parameters
              path operation) as [v2 [Hout2 Hval2]].
  destruct (errors_of_outcome _ _ _ _ _ Hout1) as [Herr1 Hv1].
  destruct (errors_of_outcome _ _ _ _ _ Hout2) as [Herr2 Hv2].
  subst full exchanged. rewrite Hv1, Hv2, Herr1, Herr2. split.
  - f_equal. apply Parameters_eq. intros l n.
    by rewrite Hval1, Hval2, Hfirst.
  - assert (forall params,
      NoDup (omap (fun d => recorded (get_parameter parameters d))
                  (surviving params ∅))) as Hnodup.
    { intros params. pose proof (surviving_NoDup params ∅) as HN.
      induction (surviving params ∅) as [|d rest IH]; [constructor|].
      rewrite fmap_cons in HN. apply NoDup_cons in HN as [Hd HN].
      cbn [omap list_omap].
      destruct (recorded (get_parameter parameters d)) as [exc|] eqn:Hrec;
        [|by apply IH].
      constructor; [|by apply IH].
      intros (d' & Hd' & Hrec')%list_elem_of_omap.
      destruct (recorded_error _ _ _ Hrec) as (_ & Hid & _).
      destruct (recorded_error _ _ _ Hrec') as (_ & Hid' & _).
      apply Hd, list_elem_of_fmap. exists d'. split; [congruence|done]. }
    apply NoDup_Permutation; [apply Hnodup..|].
    intros exc. rewrite !list_elem_of_omap.
    split; intros (d & Hd & Hrec); exists d; (split; [|done]);
      apply surviving_first_declared in Hd as [Hnot Hd];
      apply surviving_first_declared; (split; [done|]).
    + by rewrite <- Hfirst.
    + by rewrite Hfirst.
Qed.

End ParameterInvariants.

(** X6 on the required [a] and [b], both absent: the error for [a] is a
    parameter error about a declared parameter. *)
Lemma parameter_errors_follow_the_declarations_witness :
  MissingRequiredParameter "a" Query
    ∈ errors_of (_get_parameters example_convert RequestParameters.empty
                   operation_a path_b) /\
  isinstance (MissingRequiredParameter "a" Query)
    cls_ParameterValidationError = true /\
  NoDup (omap error_identity
           (errors_of (_get_parameters example_convert RequestParameters.empty
                         operation_a path_b))).
Proof.
  assert (MissingRequiredParameter "a" Query
            ∈ errors_of (_get_parameters example_convert
                           RequestParameters.empty operation_a path_b))
    as Hin by (vm_compute; left).
  destruct (parameter_errors_follow_the_declarations example_convert
              RequestParameters.empty operation_a path_b)
    as (Hkind & _ & Hnodup & _).
  split; [exact Hin|]. split; [exact (proj1 (Hkind _ Hin))|exact Hnodup].
Defined.

(** X7 on a request that carries, beside [b], a query parameter and a
    header that are not declared. *)
Lemma undeclared_parameters_are_ignored_witness :
  let crowded :=
    RequestParameters.mk {[ "b" := RawStr "1"; "page" := RawStr "2" ]}
      {[ "X-Trace" := RawStr "t" ]} ∅ ∅ in
  _get_parameters example_convert crowded operation_a path_b =
  _get_parameters example_convert only_b operation_a path_b.
Proof.
  intros crowded.
  apply (undeclared_parameters_are_ignored example_convert crowded only_b
           operation_a path_b).
  intros d Hd. unfold declared in Hd. simpl in Hd.
  apply elem_of_cons in Hd as [->|Hd]; [reflexivity|].
  apply list_elem_of_singleton in Hd as ->. reflexivity.
Defined.

(** X8 on [a], declared on the Operation, and [b], on the PathItem. *)
Lemma exchanged_arguments_with_disjoint_declarations_witness :
  validated_of (_get_parameters example_convert only_b operation_a path_b) =
  validated_of (_get_parameters example_convert only_b path_b operation_a) /\
  errors_of (_get_parameters example_convert RequestParameters.empty
               operation_a path_b)
  ≡ₚ errors_of (_get_parameters example_convert RequestParameters.empty
                  path_b operation_a).
Proof.
  assert (forall d1 d2,
    d1 ∈ get (spec_parameters operation_a) [] ->
    d2 ∈ get (spec_parameters path_b) [] ->
    identity d1 <> identity d2) as Hdisjoint.
  { intros d1 d2 H1 H2. simpl in H1, H2.
    apply list_elem_of_singleton in H1 as ->.
    apply list_elem_of_singleton in H2 as ->. discriminate. }
  split.
  - apply (exchanged_arguments_with_disjoint_declarations example_convert
             only_b operation_a path_b Hdisjoint).
  - apply (exchanged_arguments_with_disjoint_declarations example_convert
             RequestParameters.empty operation_a path_b Hdisjoint).
Defined.

(** ** Further properties of security resolution *)

Section SecurityInvariants.

Variable spec : Document.
Variable security_provider :
  string -> RequestParameters.t -> Value + string.

Local Abbreviation loop := (_get_security_loop spec security_provider).

(** [_get_security] in terms of the effective requirement. *)
Lemma _get_security_effective parameters operation :
  _get_security spec security_provider parameters operation =
    match effective_security spec operation with
    | None | Some [] => Ok ∅
    | Some alternatives =>
        ValidationErrorWrapper cls_SecurityValidationError
          SecurityValidationError InvalidSecurity
          (loop parameters alternatives [])
    end.
Proof.
  unfold _get_security, _get_security_body, effective_security.
  destruct (spec_security operation) as [[|a l]|]; try done.
  by destruct (doc_security spec) as [[|a l]|].
Qed.

(** On a document without [components#securitySchemes] no provider is
    asked, so no alternative is refused. *)
Lemma refused_missing_section parameters alternative :
  securitySchemes spec = None ->
  refused spec security_provider parameters alternative = false.
Proof.
  intros Hnone. unfold refused, provider_outcome. rewrite Hnone.
  by induction (keys alternative).
Qed.

(** On such a document the first scheme name that is looked up ends
    security resolution with [KeyError]. *)
Lemma _get_security_missing_section parameters operation alternative later :
  securitySchemes spec = None ->
  effective_security spec operation = Some (alternative :: later) ->
  keys alternative <> [] ->
  _get_security spec security_provider parameters operation = Raise KeyError.
Proof.
  intros Hnone Heff Hkeys. rewrite _get_security_effective, Heff.
  cbn [_get_security_loop].
  destruct (keys alternative) as [|n rest]; [done|].
  cbn [security_values]. unfold _get_security_value. by rewrite Hnone.
Qed.

(** X9: the failures of security resolution. It fails with a security
    error exactly when the effective requirement has alternatives and
    every one of them is refused by a provider; the error is then the
    wrapped [SecurityNotFound] with the scheme names of every
    alternative, in order. Its only other failure is the [KeyError] of
    the unguarded [components#securitySchemes]: exactly when the
    document has no such section and the first alternative names a
    scheme. *)
Theorem security_resolution_fails_exactly_when parameters operation exc :
  _get_security spec security_provider parameters operation = Raise exc <->
  (exists alternatives,
     effective_security spec operation = Some alternatives /\
     alternatives <> [] /\
     forallb (refused spec security_provider parameters) alternatives
       = true /\
     exc = SecurityValidationError
             (SecurityNotFound (keys <$> alternatives))) \/
  (exists alternative later,
     effective_security spec operation = Some (alternative :: later) /\
     keys alternative <> [] /\
     securitySchemes spec = None /\
     exc = KeyError).
Proof.
  split.
  - intros Hraise.
    destruct (_get_security_raises_cases _ _ _ _ _ Hraise)
      as [?|[Hnone ->]]; [by left|]. right.
    revert Hraise. rewrite _get_security_effective.
    destruct (effective_security spec operation) as [[|alternative later]|];
      try done.
    intros Hraise. exists alternative, later. repeat split; try done.
    intros Hkeys. revert Hraise. cbn [_get_security_loop].
    by rewrite Hkeys.
  - intros [(alternatives & Heff & Hne & Hall & ->)
           |(alternative & later & Heff & Hkeys & Hnone & ->)].
    + by apply _get_security_refused.
    + by eapply _get_security_missing_section.
Qed.

(** X10: a scheme name that the document's [components#securitySchemes]
    does not declare has the credential [None], and no provider is
    asked: a first alternative made of such names is accepted for every
    request, and the result maps each of its names to [None]. This
    needs the section to be there. On a document without it the lookup
    of the first name raises [KeyError], which is no security error:
    it leaves [_get_security], [_unmarshal] and [_iter_errors], and
    [validate] raises it. *)
Theorem undeclared_scheme_or_missing_section parameters operation
    alternative later :
  effective_security spec operation = Some (alternative :: later) ->
  (forall schemes,
     securitySchemes spec = Some schemes ->
     (forall n, n ∈ keys alternative -> schemes !! n = None) ->
     exists found,
       _get_security spec security_provider parameters operation
         = Ok found /\
       forall n,
         found !! n
           = if decide (n ∈ keys alternative) then Some VNone else None) /\
  (securitySchemes spec = None ->
   keys alternative <> [] ->
   _get_security spec security_provider parameters operation
     = Raise KeyError /\
   forall convert_parameter _convert_content_schema_value request path,
     Request.parameters request = parameters ->
     _unmarshal spec convert_parameter _convert_content_schema_value
       security_provider request operation path = Raise KeyError /\
     _iter_errors spec convert_parameter _convert_content_schema_value
       security_provider request operation path = ([], Some KeyError) /\
     validate
       (fun r =>
          _iter_errors spec convert_parameter _convert_content_schema_value
            security_provider r operation path)
       request = Raise KeyError).
Proof.
  intros Heff. split.
  - intros schemes Hsome Hunknown.
    assert (forall n, n ∈ keys alternative ->
              provider_outcome spec security_provider parameters n
                = Some (inl VNone)) as Houtcome.
    { intros n Hn. unfold provider_outcome.
      by rewrite Hsome, (Hunknown n Hn). }
    assert (accepted spec security_provider parameters alternative = true)
      as Hacc.
    { unfold accepted. apply forallb_forall. intros n Hn%list_elem_of_In.
      by rewrite (Houtcome n Hn). }
    destruct (_get_security_accepted spec security_provider parameters
                operation [] alternative later Heff eq_refl Hacc)
      as [found [-> Hlookup]].
    exists found. split; [done|]. intros n. rewrite Hlookup.
    case_decide as Hn; [|done]. by rewrite (Houtcome n Hn).
  - intros Hnone Hkeys.
    pose proof (_get_security_missing_section parameters operation
                  alternative later Hnone Heff Hkeys) as Hraise.
    split; [done|].
    intros convert_parameter _convert_content_schema_value request path <-.
    unfold validate, _unmarshal, _iter_errors. by rewrite Hraise.
Qed.

(** X11: the scopes listed under a scheme are not consulted: two
    operations whose effective requirements name the same schemes, in
    the same alternatives, resolve alike whatever their scopes are. *)
Theorem scopes_are_not_consulted parameters operation operation' :
  (fun alternatives : list SecurityRequirement => keys <$> alternatives)
    <$> effective_security spec operation =
  (fun alternatives : list SecurityRequirement => keys <$> alternatives)
    <$> effective_security spec operation' ->
  _get_security spec security_provider parameters operation =
  _get_security spec security_provider parameters operation'.
Proof.
  assert (forall a1 a2 schemes,
    keys <$> a1 = keys <$> a2 ->
    loop parameters a1 schemes = loop parameters a2 schemes) as Hloop.
  { induction a1 as [|r1 a1 IH]; intros [|r2 a2] schemes; try done.
    rewrite !fmap_cons. intros [= Hkeys Hrest]. cbn [_get_security_loop].
    rewrite Hkeys. destruct (security_values _ _ _ _ _) as [found|exc]; [done|].
    destruct (isinstance exc cls_SecurityProviderError); [|done].
    by apply IH. }
  rewrite !_get_security_effective.
  destruct (effective_security spec operation) as [[|r1 a1]|];
    destruct (effective_security spec operation') as [[|r2 a2]|];
    try done.
  intros [= Hkeys Hrest]. apply f_equal, Hloop.
  rewrite !fmap_cons. by f_equal.
Qed.

End SecurityInvariants.

(** X10 on an operation that asks for [ghost]: with the document that
    declares [basic] and [apiKey] the credential is [None]; with the
    document that has no [components#securitySchemes] the request
    cannot be processed. *)
Lemma undeclared_scheme_or_missing_section_witness :
  let request := request_of None RequestParameters.empty in
  (exists found,
     _get_security two_schemes example_provider RequestParameters.empty
       operation_ghost = Ok found /\
     found !! "ghost" = Some VNone) /\
  _get_security no_security example_provider RequestParameters.empty
    operation_ghost = Raise KeyError /\
  _unmarshal no_security example_convert example_convert_body
    example_provider request operation_ghost (node None) = Raise KeyError /\
  validate
    (fun r =>
       _iter_errors no_security example_convert example_convert_body
         example_provider r operation_ghost (node None))
    request = Raise KeyError.
Proof.
  intros request. split.
  - destruct (undeclared_scheme_or_missing_section two_schemes
                example_provider RequestParameters.empty operation_ghost
                [("ghost", [])] [] eq_refl) as [Hpresent _].
    destruct (Hpresent _ eq_refl) as [found [Hfound Hlookup]].
    { intros n Hn. apply list_elem_of_singleton in Hn as ->. reflexivity. }
    exists found. split; [exact Hfound|]. by rewrite Hlookup.
  - destruct (undeclared_scheme_or_missing_section no_security
                example_provider RequestParameters.empty operation_ghost
                [("ghost", [])] [] eq_refl) as [_ Hmissing].
    destruct (Hmissing eq_refl) as [Hraise Hpipeline]; [discriminate|].
    split; [exact Hraise|].
    destruct (Hpipeline example_convert example_convert_body request
                (node None) eq_refl) as (Hun & _ & Hval).
    split; [exact Hun|exact Hval].
Defined.

(** X11 on the secured operation and a copy of it that lists scopes. *)
Lemma scopes_are_not_consulted_witness :
  let scoped :=
    {| spec_parameters := None;
       spec_security :=
         Some [[("basic", ["read"])]; [("apiKey", ["read"; "write"])];
               [("basic", []); ("apiKey", ["admin"])]];
       spec_requestBody := None |} in
  _get_security two_schemes example_provider with_api_key scoped =
  _get_security two_schemes example_provider with_api_key operation_secured.
Proof.
  intros scoped.
  apply (scopes_are_not_consulted two_schemes example_provider with_api_key
           scoped operation_secured).
  reflexivity.
Defined.

(** X9 on the secured operation and a request with no credential, and
    on the operation that asks for [ghost] with the document that has no
    [components#securitySchemes]. *)
Lemma security_resolution_fails_exactly_when_witness :
  _get_security two_schemes example_provider RequestParameters.empty
    operation_secured
  = Raise (SecurityValidationError
             (SecurityNotFound [["basic"]; ["apiKey"]; ["basic"; "apiKey"]])) /\
  _get_security no_security example_provider RequestParameters.empty
    operation_ghost = Raise KeyError.
Proof.
  split.
  - apply (security_resolution_fails_exactly_when two_schemes
             example_provider RequestParameters.empty operation_secured).
    left.
    exists [[("basic", [])]; [("apiKey", [])]; [("basic", []); ("apiKey", [])]].
    repeat split; discriminate.
  - apply (security_resolution_fails_exactly_when no_security
             example_provider RequestParameters.empty operation_ghost).
    right. exists [("ghost", [])], []. repeat split; discriminate.
Defined.

(** ** How the stages compose *)

Section FacetComposition.

Variable spec : Document.
Variable convert_parameter :
  ParameterDescriptor -> Raw -> Value + StageFailure.
Variable _convert_content_schema_value :
  string -> list (string * string) -> string -> Value + StageFailure.
Variable security_provider :
  string -> RequestParameters.t -> Value + string.
Variable path_finder : Request.t -> PathOperationServer + string.

Local Abbreviation get_security := (_get_security spec security_provider).
Local Abbreviation get_parameters := (_get_parameters convert_parameter).
Local Abbreviation get_body := (_get_body _convert_content_schema_value).
Local Abbreviation unmarshal_full :=
  (_unmarshal spec convert_parameter _convert_content_schema_value
     security_provider).
Local Abbreviation iter_errors_full :=
  (_iter_errors spec convert_parameter _convert_content_schema_value
     security_provider).

(** The results of the three partial unmarshallers. *)
Lemma _unmarshal_parameters_result request operation path :
  let outcome := get_parameters (Request.parameters request) path operation in
  _unmarshal_parameters convert_parameter request operation path =
    Ok (RequestUnmarshalResult.mk (errors_of outcome) VNone
          (validated_of outcome) None).
Proof.
  intros outcome. unfold _unmarshal_parameters. subst outcome.
  destruct (_get_parameters_outcome convert_parameter
              (Request.parameters request) path operation)
    as [validated [-> _]].
  by destruct (omap _ _).
Qed.

Lemma _unmarshal_body_result request operation path :
  let outcome :=
    body_outcome (get_body (Request.body request) (Request.mimetype request)
                    operation) in
  _unmarshal_body _convert_content_schema_value request operation path =
    Ok (RequestUnmarshalResult.mk outcome.2 outcome.1 None None).
Proof.
  intros outcome. unfold _unmarshal_body. subst outcome.
  destruct (get_body _ _ _) as [v|exc] eqn:Hbody; [done|].
  apply _get_body_raises in Hbody. unfold body_outcome.
  destruct (isinstance exc cls_MissingRequestBody); [done|].
  change (isinstance exc cls_RequestBodyError)
    with (isinstance exc cls_RequestBodyValidationError).
  by rewrite Hbody.
Qed.

(** X4: the full pipeline is made of the partial ones, run in the
    order security, parameters, body. When the security facet has an
    error the full result is the security facet's; otherwise its errors
    are those of the parameters facet followed by those of the body
    facet, and its body, parameters and security are the facets'. An
    exception that leaves a facet leaves the full pipeline. Likewise
    the error sequence of the full validator is the security sequence
    alone when it yields an error or is left by an exception, else the
    parameters sequence followed by the body sequence. The parameters
    facet is taken with its two arguments exchanged, since
    [_unmarshal_parameters] and [_iter_parameters_errors] hand them over
    that way. *)
Theorem full_result_is_made_of_the_facets request operation path :
  unmarshal_full request operation path =
    (s ← _unmarshal_security spec security_provider request operation path;
     if truthy (RequestUnmarshalResult.errors s) then Ok s
     else
       p ← _unmarshal_parameters convert_parameter request path operation;
       b ← _unmarshal_body _convert_content_schema_value request operation
             path;
       Ok (RequestUnmarshalResult.mk
             (RequestUnmarshalResult.errors p
                ++ RequestUnmarshalResult.errors b)
             (RequestUnmarshalResult.body b)
             (RequestUnmarshalResult.parameters p)
             (RequestUnmarshalResult.security s))) /\
  iter_errors_full request operation path =
    match _iter_security_errors spec security_provider request operation with
    | ([], None) =>
        gen_then
          (_iter_parameters_errors convert_parameter request path operation)
          (_iter_body_errors _convert_content_schema_value request operation)
    | failed => failed
    end.
Proof.
  split.
  - unfold _unmarshal_security.
    rewrite _unmarshal_parameters_result, _unmarshal_body_result.
    destruct (get_security (Request.parameters request) operation)
      as [security|exc] eqn:Hsec.
    + destruct (_unmarshal_after_security spec convert_parameter
                  _convert_content_schema_value security_provider request
                  operation path security Hsec) as [validated [Hval ->]].
      cbn. by rewrite Hval.
    + unfold _unmarshal. rewrite Hsec.
      by destruct (_get_security_raises _ _ _ _ _ Hsec)
        as [[attempted ->]| ->].
  - unfold _iter_errors, _iter_security_errors.
    destruct (get_security (Request.parameters request) operation)
      as [security|exc] eqn:Hsec; [done|].
    by destruct (_get_security_raises _ _ _ _ _ Hsec)
      as [[attempted ->]| ->].
Qed.

(** X1: an operation that declares no request body: whatever the
    payload and the media type of the request, body resolution gives no
    body and no error and the converter is not run. The BodyOnly
    variants report nothing, and after a successful security stage the
    full pipeline reports the parameter errors only. *)
Theorem undeclared_request_body_is_not_inspected request operation path :
  spec_requestBody operation = None ->
  let parameter_errors :=
    errors_of (get_parameters (Request.parameters request) operation path) in
  _unmarshal_body _convert_content_schema_value request operation path =
    Ok (RequestUnmarshalResult.mk [] VNone None None) /\
  _iter_body_errors _convert_content_schema_value request operation
    = ([], None) /\
  forall security,
    get_security (Request.parameters request) operation = Ok security ->
    iter_errors_full request operation path = (parameter_errors, None) /\
    exists validated,
      unmarshal_full request operation path =
        Ok (RequestUnmarshalResult.mk parameter_errors VNone
              (Some validated) (Some security)).
Proof.
  intros Hnone parameter_errors.
  assert (get_body (Request.body request) (Request.mimetype request) operation
          = Ok VNone) as Hbody.
  { unfold _get_body, _get_body_body. by rewrite Hnone. }
  split; [unfold _unmarshal_body; by rewrite Hbody|].
  split; [unfold _iter_body_errors; by rewrite Hbody|].
  intros security Hsec. split.
  - rewrite (_iter_errors_after_security spec convert_parameter
               _convert_content_schema_value security_provider request
               operation path security Hsec).
    rewrite Hbody. cbn. by rewrite app_nil_r.
  - destruct (_unmarshal_after_security spec convert_parameter
                _convert_content_schema_value security_provider request
                operation path security Hsec) as [validated [_ ->]].
    exists validated. rewrite Hbody. cbn. by rewrite app_nil_r.
Qed.

(** X12: a request that [validate] accepts is unmarshalled without
    error, with its parameters and its security mapping present. (The
    converse fails on an optional body that is missing.) *)
Theorem accepted_by_validate_is_unmarshalled_without_error request :
  validate
    (APICallRequestValidator_iter_errors spec convert_parameter
       _convert_content_schema_value security_provider path_finder)
    request = Ok tt ->
  exists body validated security,
    APICallRequestUnmarshaller_unmarshal spec convert_parameter
      _convert_content_schema_value security_provider path_finder request =
      Ok (RequestUnmarshalResult.mk [] body (Some validated) (Some security)).
Proof.
  unfold validate, APICallRequestValidator_iter_errors,
    APICallRequestUnmarshaller_unmarshal, unmarshal_with, _find_path.
  destruct (path_finder request) as [found|detail]; [|done]. cbn zeta.
  set (request' := with_path_variables request found).
  destruct (get_security (Request.parameters request') (found_operation found))
    as [security|exc] eqn:Hsec.
  - rewrite (_iter_errors_after_security spec convert_parameter
               _convert_content_schema_value security_provider request'
               _ (found_path found) security Hsec).
    destruct (_unmarshal_after_security spec convert_parameter
                _convert_content_schema_value security_provider request'
                _ (found_path found) security Hsec) as [validated [_ ->]].
    destruct (errors_of _) as [|e errors]; [|done].
    destruct (get_body _ _ _) as [v|exc]; [|done].
    intros _. by exists v, validated, security.
  - unfold _iter_errors. rewrite Hsec.
    by destruct (_get_security_raises _ _ _ _ _ Hsec)
      as [[attempted ->]| ->].
Qed.

End FacetComposition.

(** X13: the path variables that the path finder extracts fill the
    request's path parameters only when the caller gave none; the
    caller's own path parameters are kept, the other locations and the
    rest of the request are untouched, and filling twice is filling
    once. *)
Theorem path_variables_fill_an_empty_path_only request found :
  let filled := with_path_variables request found in
  (RequestParameters.path (Request.parameters request) <> ∅ ->
   filled = request) /\
  (RequestParameters.path (Request.parameters request) = ∅ ->
   RequestParameters.path (Request.parameters filled)
     = path_result_variables found) /\
  with_path_variables filled found = filled /\
  RequestParameters.query (Request.parameters filled)
    = RequestParameters.query (Request.parameters request) /\
  RequestParameters.header (Request.parameters filled)
    = RequestParameters.header (Request.parameters request) /\
  RequestParameters.cookie (Request.parameters filled)
    = RequestParameters.cookie (Request.parameters request) /\
  Request.body filled = Request.body request.
Proof.
  destruct request as [m u mt b [q h c pth]].
  unfold with_path_variables, Request.set_parameters_path,
    RequestParameters.set_path, dict_or. cbn.
  repeat split.
  - intros Hne. by rewrite decide_False.
  - intros ->. by rewrite decide_True.
  - destruct (decide (pth = ∅)) as [->|Hne]; cbn.
    + by destruct (decide (path_result_variables found = ∅)) as [->|?].
    + by rewrite decide_False.
Qed.

(** X1 on an operation without request body and a request that sends
    one. *)
Lemma undeclared_request_body_is_not_inspected_witness :
  let request := request_of (Some "{}") RequestParameters.empty in
  spec_requestBody operation_a = None /\
  _unmarshal_body example_convert_body request operation_a path_b =
    Ok (RequestUnmarshalResult.mk [] VNone None None) /\
  _iter_body_errors example_convert_body request operation_a = ([], None).
Proof.
  intros request.
  destruct (undeclared_request_body_is_not_inspected no_security
              example_convert example_convert_body example_provider request
              operation_a path_b eq_refl) as (Hun & Hit & _).
  split; [reflexivity|]. split; [exact Hun|exact Hit].
Defined.

(** X12 on a request that carries the only declared parameter. *)
Lemma accepted_by_validate_is_unmarshalled_without_error_witness :
  let finder := example_finder path_b (node None) in
  let request := request_of None only_b in
  validate
    (APICallRequestValidator_iter_errors no_security example_convert
       example_convert_body example_provider finder) request = Ok tt /\
  exists body validated security,
    APICallRequestUnmarshaller_unmarshal no_security example_convert
      example_convert_body example_provider finder request =
      Ok (RequestUnmarshalResult.mk [] body (Some validated) (Some security)).
Proof.
  intros finder request.
  assert (validate
            (APICallRequestValidator_iter_errors no_security example_convert
               example_convert_body example_provider finder) request = Ok tt)
    as Hok by (vm_compute; reflexivity).
  split; [exact Hok|].
  exact (accepted_by_validate_is_unmarshalled_without_error no_security
           example_convert example_convert_body example_provider finder
           request Hok).
Defined.

(** X13 on a request without path parameters and a finder that
    extracts [id]. *)
Lemma path_variables_fill_an_empty_path_only_witness :
  let found :=
    {| found_path := node None; found_operation := node None;
       path_result_variables := {[ "id" := RawStr "42" ]} |} in
  let request := request_of None only_b in
  RequestParameters.path (Request.parameters request) = ∅ /\
  RequestParameters.path
    (Request.parameters (with_path_variables request found))
    = {[ "id" := RawStr "42" ]}.
Proof.
  intros found request. split; [reflexivity|].
  apply (path_variables_fill_an_empty_path_only request found). reflexivity.
Defined.

(** ** The facets of the unmarshaller classes *)

(** X14: every unmarshaller class of a dialect (V30, V31, V31Webhook)
    resolves [iter_errors] and [unmarshal] to the same facet, so its
    [validate] and its [unmarshal] look at the same part of the
    request. The partial unmarshaller classes they derive from do not:
    their first base is the full validator, so their [iter_errors] is
    the full pipeline's while their [unmarshal] is partial. No class
    with an [unmarshal] is left with the [iter_errors] that raises
    [NotImplementedError]. *)
Theorem unmarshaller_classes_validate_their_own_facet :
  Forall (fun c => exists facet,
            resolve iter_errors_attr c = Some (Stage facet) /\
            resolve unmarshal_attr c = Some (Stage facet))
         versioned_unmarshallers /\
  Forall (fun c => resolve iter_errors_attr c = Some (Stage Full) /\
                   resolve unmarshal_attr c <> Some (Stage Full) /\
                   resolve unmarshal_attr c <> None)
         partial_base_unmarshallers.
Proof.
  split.
  - unfold versioned_unmarshallers.
    repeat match goal with
           | |- Forall _ (_ :: _) => constructor
           | |- Forall _ [] => constructor
           end;
      eexists; split; vm_compute; reflexivity.
  - unfold partial_base_unmarshallers.
    repeat match goal with
           | |- Forall _ (_ :: _) => constructor
           | |- Forall _ [] => constructor
           end;
      (split; [vm_compute; reflexivity|]); split; vm_compute; discriminate.
Qed.

(** ** What the results can hold *)

Section ResultInvariants.

Variable spec : Document.
Variable convert_parameter :
  ParameterDescriptor -> Raw -> Value + StageFailure.
Variable _convert_content_schema_value :
  string -> list (string * string) -> string -> Value + StageFailure.
Variable security_provider :
  string -> RequestParameters.t -> Value + string.
Variable path_finder : Request.t -> PathOperationServer + string.

Local Abbreviation get_body := (_get_body _convert_content_schema_value).
Local Abbreviation unmarshal :=
  (APICallRequestUnmarshaller_unmarshal spec convert_parameter
     _convert_content_schema_value security_provider path_finder).

Lemma errors_of_are_parameter_errors parameters operation path exc :
  exc ∈ errors_of (_get_parameters convert_parameter parameters operation path)
  -> isinstance exc cls_ParameterValidationError = true.
Proof.
  destruct (_get_parameters_outcome convert_parameter parameters
              operation path) as [validated [Hout _]].
  destruct (errors_of_outcome _ _ _ _ _ Hout) as [-> _].
  intros (d & _ & Hrec)%list_elem_of_omap.
  by destruct (recorded_error _ _ _ _ Hrec) as (_ & _ & Hpve & _).
Qed.

Lemma with_path_variables_idempotent request found :
  with_path_variables (with_path_variables request found) found
  = with_path_variables request found.
Proof.
  destruct request as [m u mt b [q h c pth]].
  unfold with_path_variables, Request.set_parameters_path,
    RequestParameters.set_path, dict_or. cbn.
  destruct (decide (pth = ∅)) as [->|Hne]; cbn.
  - by destruct (decide (path_result_variables found = ∅)) as [->|?].
  - by rewrite decide_False.
Qed.

(** X2: the [required] flag of a request body matters only when the
    body is missing. For a body that is present (not empty), body
    resolution gives what the converter gives on the declared content,
    whether the body is required or not, and it raises neither
    [MissingRequestBody] nor [MissingRequiredRequestBody]. *)
Theorem present_body_ignores_the_required_flag raw mimetype operation
    operation' request_body request_body' :
  raw <> "" ->
  spec_requestBody operation = Some request_body ->
  spec_requestBody operation' = Some request_body' ->
  content request_body = content request_body' ->
  _get_body _convert_content_schema_value (Some raw) mimetype operation
  = _get_body _convert_content_schema_value (Some raw) mimetype operation' /\
  _get_body _convert_content_schema_value (Some raw) mimetype operation <> Raise MissingRequestBody /\
  _get_body _convert_content_schema_value (Some raw) mimetype operation <> Raise MissingRequiredRequestBody /\
  (forall v,
     _get_body _convert_content_schema_value (Some raw) mimetype operation = Ok v <->
     _convert_content_schema_value raw (content request_body) mimetype
       = inl v).
Proof.
  intros Hraw Hdecl Hdecl' Hcontent.
  unfold _get_body, _get_body_body, _get_body_value.
  rewrite Hdecl, Hdecl', Hcontent.
  destruct raw as [|c raw]; [done|].
  destruct (_convert_content_schema_value _ _ _) as [v|[d|d]]; cbn;
    repeat split; try done; by intros [= ->].
Qed.

(** X5: what the errors of a result of [unmarshal] can be. Each of
    them is a routing error, a security error, a parameter error or a
    body error, and never the [MissingParameter] or
    [MissingRequestBody] of an optional part that is missing. A routing
    or a security error is the only error of its result. *)
Theorem unmarshal_result_shape request result :
  APICallRequestUnmarshaller_unmarshal spec convert_parameter
    _convert_content_schema_value security_provider path_finder request
    = Ok result ->
  (forall exc, exc ∈ RequestUnmarshalResult.errors result ->
     (isinstance exc cls_PathError
      || isinstance exc cls_SecurityValidationError
      || isinstance exc cls_ParameterValidationError
      || isinstance exc cls_RequestBodyValidationError = true) /\
     isinstance exc cls_MissingParameter = false /\
     isinstance exc cls_MissingRequestBody = false) /\
  (forall exc, exc ∈ RequestUnmarshalResult.errors result ->
     isinstance exc cls_PathError
     || isinstance exc cls_SecurityValidationError = true ->
     RequestUnmarshalResult.errors result = [exc]).
Proof.
  unfold APICallRequestUnmarshaller_unmarshal, unmarshal_with, _find_path.
  destruct (path_finder request) as [found|detail]; cbn zeta.
  2:{ intros [= <-]. cbn [RequestUnmarshalResult.errors].
      split; by intros exc ->%list_elem_of_singleton. }
  set (request' := with_path_variables request found).
  destruct (_get_security spec security_provider
              (Request.parameters request') (found_operation found))
    as [security|exc] eqn:Hsec.
  - destruct (_unmarshal_after_security spec convert_parameter
                _convert_content_schema_value security_provider request'
                _ (found_path found) security Hsec) as [validated [_ ->]].
    intros [= <-]. cbn [RequestUnmarshalResult.errors].
    assert (forall exc,
      exc ∈ errors_of (_get_parameters convert_parameter
                         (Request.parameters request')
                         (found_operation found) (found_path found))
            ++ (body_outcome (get_body (Request.body request')
                                (Request.mimetype request')
                                (found_operation found))).2 ->
      (isinstance exc cls_ParameterValidationError = true /\
       isinstance exc cls_MissingParameter = false \/
       isinstance exc cls_RequestBodyValidationError = true) /\
      isinstance exc cls_MissingRequestBody = false) as Hkinds.
    { intros exc [Hin|Hin]%elem_of_app.
      - pose proof (errors_of_are_parameter_errors _ _ _ _ Hin) as Hpve.
        split; [|by destruct exc]. left. split; [done|].
        destruct (_get_parameters_outcome convert_parameter
                    (Request.parameters request')
                    (found_operation found) (found_path found))
          as [validated' [Hout _]].
        destruct (errors_of_outcome _ _ _ _ _ Hout) as [Herr _].
        rewrite Herr in Hin.
        apply list_elem_of_omap in Hin as (d & _ & Hrec).
        by destruct (recorded_error _ _ _ _ Hrec) as (_ & _ & _ & ?).
      - destruct (get_body _ _ _) as [v|exc'] eqn:Hbody;
          [by apply elem_of_nil in Hin|].
        apply _get_body_raises in Hbody. unfold body_outcome in Hin.
        destruct (isinstance exc' cls_MissingRequestBody) eqn:Hmiss;
          [by apply elem_of_nil in Hin|].
        apply list_elem_of_singleton in Hin as ->. split; [by right|done]. }
    split.
    + intros exc Hin. destruct (Hkinds exc Hin) as [[[Hk Hmp]|Hk] Hmiss].
      * repeat split; try done.
        rewrite Hk. by rewrite !orb_true_r.
      * repeat split; try done; [|by destruct exc].
        rewrite Hk. by rewrite !orb_true_r.
    + intros exc Hin Hterminal. exfalso.
      destruct (Hkinds exc Hin) as [[[Hk _]|Hk] _]; by destruct exc.
  - unfold _unmarshal. rewrite Hsec.
    destruct (_get_security_raises _ _ _ _ _ Hsec) as [[attempted ->]| ->];
      [|done].
    intros [= <-]. cbn [RequestUnmarshalResult.errors].
    split; by intros exc ->%list_elem_of_singleton.
Qed.

(** X15: unmarshalling is idempotent. The first call leaves the
    extracted path variables in the request; when the path finder
    resolves the request so updated as it resolved the original one, a
    second call returns the same result. *)
Theorem unmarshal_twice_is_unmarshal_once request found :
  path_finder request = inl found ->
  path_finder (with_path_variables request found) = inl found ->
  unmarshal (with_path_variables request found) = unmarshal request.
Proof.
  intros Hfirst Hsecond.
  unfold APICallRequestUnmarshaller_unmarshal, unmarshal_with, _find_path.
  rewrite Hfirst, Hsecond. cbn zeta.
  by rewrite with_path_variables_idempotent.
Qed.

End ResultInvariants.

(** X2 on a present body, for an optional and a required request
    body. *)
Lemma present_body_ignores_the_required_flag_witness :
  _get_body example_convert_body (Some "{}") "application/json"
    (operation_with_body None)
  = _get_body example_convert_body (Some "{}") "application/json"
      (operation_with_body (Some true)) /\
  _get_body example_convert_body (Some "{}") "application/json"
    (operation_with_body None) = Ok (VStr "{}").
Proof.
  destruct (present_body_ignores_the_required_flag example_convert_body
              "{}" "application/json" (operation_with_body None)
              (operation_with_body (Some true)) _ _
              ltac:(discriminate) eq_refl eq_refl eq_refl)
    as (Hsame & _ & _ & Hok).
  split; [exact Hsame|]. apply Hok. reflexivity.
Defined.

(** X5 on the secured operation and a request with no credential: the
    result has the security error and no other. *)
Lemma unmarshal_result_shape_witness :
  let finder := example_finder (node None) operation_secured in
  let exc :=
    SecurityValidationError
      (SecurityNotFound [["basic"]; ["apiKey"]; ["basic"; "apiKey"]]) in
  let result := RequestUnmarshalResult.mk [exc] VNone None None in
  APICallRequestUnmarshaller_unmarshal two_schemes example_convert
    example_convert_body example_provider finder
    (request_of None RequestParameters.empty) = Ok result /\
  RequestUnmarshalResult.errors result = [exc] /\
  isinstance exc cls_MissingParameter = false.
Proof.
  intros finder exc result.
  assert (APICallRequestUnmarshaller_unmarshal two_schemes example_convert
            example_convert_body example_provider finder
            (request_of None RequestParameters.empty) = Ok result)
    as Hresult by (vm_compute; reflexivity).
  destruct (unmarshal_result_shape two_schemes example_convert
              example_convert_body example_provider finder _ _ Hresult)
    as [Hkinds Hterminal].
  split; [exact Hresult|]. split.
  - apply (Hterminal exc); [by left|reflexivity].
  - apply (Hkinds exc). by left.
Defined.

(** X15 on the finder of the examples, which does not look at the
    parameters of the request. *)
Lemma unmarshal_twice_is_unmarshal_once_witness :
  let finder := example_finder path_b operation_a in
  let request := request_of None only_b in
  let found :=
    {| found_path := path_b; found_operation := operation_a;
       path_result_variables := ∅ |} in
  APICallRequestUnmarshaller_unmarshal no_security example_convert
    example_convert_body example_provider finder
    (with_path_variables request found)
  = APICallRequestUnmarshaller_unmarshal no_security example_convert
      example_convert_body example_provider finder request.
Proof.
  intros finder request found.
  apply (unmarshal_twice_is_unmarshal_once no_security example_convert
           example_convert_body example_provider finder request found);
    reflexivity.
Defined.

(** ** Agreement of the two modes *)

Section ModesAgreement.

Variable spec : Document.
Variable convert_parameter :
  ParameterDescriptor -> Raw -> Value + StageFailure.
Variable _convert_content_schema_value :
  string -> list (string * string) -> string -> Value + StageFailure.
Variable security_provider :
  string -> RequestParameters.t -> Value + string.
Variable path_finder : Request.t -> PathOperationServer + string.

(** X3: unless body resolution raises [MissingRequestBody] (an optional
    body that is missing), the errors in the result of [unmarshal] are
    exactly the errors that [iter_errors] yields, in the same order:
    the routing error alone, the security error alone, or the parameter
    errors followed by the body error. On a document that has
    [components#securitySchemes] there is such a result; on any
    document, an exception that leaves [unmarshal] leaves [iter_errors]
    too. *)
Theorem unmarshal_errors_are_the_validator_sequence request :
  (forall found,
     path_finder request = inl found ->
     _get_body _convert_content_schema_value (Request.body request)
       (Request.mimetype request) (found_operation found)
     <> Raise MissingRequestBody) ->
  (securitySchemes spec <> None ->
   exists result,
     APICallRequestUnmarshaller_unmarshal spec convert_parameter
       _convert_content_schema_value security_provider path_finder request
       = Ok result /\
     APICallRequestValidator_iter_errors spec convert_parameter
       _convert_content_schema_value security_provider path_finder request
       = (RequestUnmarshalResult.errors result, None)) /\
  match
    APICallRequestUnmarshaller_unmarshal spec convert_parameter
      _convert_content_schema_value security_provider path_finder request
  with
  | Ok result =>
      APICallRequestValidator_iter_errors spec convert_parameter
        _convert_content_schema_value security_provider path_finder request
        = (RequestUnmarshalResult.errors result, None)
  | Raise exc =>
      (APICallRequestValidator_iter_errors spec convert_parameter
         _convert_content_schema_value security_provider path_finder
         request).2 = Some exc
  end.
Proof.
  intros Hbody.
  unfold APICallRequestUnmarshaller_unmarshal, unmarshal_with,
    APICallRequestValidator_iter_errors, _find_path.
  destruct (path_finder request) as [found|detail] eqn:Hfind; cbn zeta.
  2:{ split; [|done]. intros _. eexists. by split. }
  assert (_get_body _convert_content_schema_value
            (Request.body (with_path_variables request found))
            (Request.mimetype (with_path_variables request found))
            (found_operation found) <> Raise MissingRequestBody) as Hbody'.
  { destruct request as [m u mt b ps]. exact (Hbody found eq_refl). }
  pose proof (modes_agree_unless_optional_body_missing spec
                convert_parameter _convert_content_schema_value
                security_provider (with_path_variables request found)
                (found_operation found) (found_path found) Hbody')
    as Hagree.
  destruct (_unmarshal _ _ _ _ _ _ _) as [result|exc] eqn:Hun.
  - split; [|done]. intros _. by exists result.
  - split; [|by rewrite Hagree]. intros Hsection.
    by destruct (_unmarshal_raises _ _ _ _ _ _ _ _ Hun) as [Hnone _].
Qed.

End ModesAgreement.

(** X3 on a request without body for an operation that requires one:
    both modes report [MissingRequiredRequestBody]. *)
Lemma unmarshal_errors_are_the_validator_sequence_witness :
  let finder := example_finder (node None) (operation_with_body (Some true)) in
  let request := request_of None RequestParameters.empty in
  exists result,
    APICallRequestUnmarshaller_unmarshal two_schemes example_convert
      example_convert_body example_provider finder request = Ok result /\
    APICallRequestValidator_iter_errors two_schemes example_convert
      example_convert_body example_provider finder request
      = (RequestUnmarshalResult.errors result, None).
Proof.
  intros finder request.
  destruct (unmarshal_errors_are_the_validator_sequence two_schemes
              example_convert example_convert_body example_provider finder
              request) as [Hresult _].
  - intros found Hfound. vm_compute in Hfound. injection Hfound as <-.
    vm_compute. discriminate.
  - apply Hresult. discriminate.
Defined.
